(** * Aurora.js: a shallow embedding and its verified properties

    The development follows the single source file [js/Aurora.js]:

    - [JS]: the fragment of JavaScript the class relies on: numbers,
      truthiness and [||], strings, [parseInt];
    - [Aurora]: the methods of [class Aurora] that run on the CPU
      ([constructor], [resizeCanvas], [hexToRgb], [fallbackToCanvas2D]),
      written with explicit state passing over the fields of [this];
    - [GLSL]: the two fragment shaders returned by [fragmentShaderSource]
      (the [#version 300 es] text and the WebGL 1 text).

    Numbers.  A JavaScript number is an IEEE double and a GLSL [float] a
    single.  Rounding is abstracted away: CPU-side numbers are exact
    rationals extended with [NaN] and the two infinities (zero carries no
    sign), so that every CPU-side definition evaluates; shader-side values
    are real numbers, because the shader calls [exp]. *)

From Stdlib Require Import ZArith QArith Qminmax Qround String Ascii List Bool.
From Stdlib Require Import Lia Lqa.
From Stdlib Require Import Reals Lra Zfloor.
Import ListNotations.

(* ================================================================== *)
(** * The JavaScript fragment *)
(* ================================================================== *)

Module JS.

Local Open Scope Q_scope.

(** ** Numbers *)

Inductive number : Type :=
| NaN
| Inf (negative : bool)
| Fin (q : Q).

Definition of_Z (z : Z) : number := Fin (inject_Z z).

Definition Qneg (q : Q) : bool := negb (Qle_bool 0 q).
Definition Qzero (q : Q) : bool := Qeq_bool q 0.

Definition is_NaN (n : number) : bool :=
  match n with NaN => true | _ => false end.

(** [a * b] *)
Definition mul (a b : number) : number :=
  match a, b with
  | NaN, _ | _, NaN => NaN
  | Fin x, Fin y => Fin (x * y)
  | Inf s, Fin y | Fin y, Inf s =>
      if Qzero y then NaN else Inf (xorb s (Qneg y))
  | Inf s, Inf t => Inf (xorb s t)
  end.

(** [a / b] *)
Definition div (a b : number) : number :=
  match a, b with
  | NaN, _ | _, NaN => NaN
  | Fin x, Fin y =>
      if Qzero y then (if Qzero x then NaN else Inf (Qneg x))
      else Fin (x / y)
  | Fin _, Inf _ => Fin 0
  | Inf s, Fin y => Inf (xorb s (Qneg y))
  | Inf _, Inf _ => NaN
  end.

(** [a - b] *)
Definition sub (a b : number) : number :=
  match a, b with
  | NaN, _ | _, NaN => NaN
  | Fin x, Fin y => Fin (x - y)
  | Inf s, Fin _ => Inf s
  | Fin _, Inf s => Inf (negb s)
  | Inf s, Inf t => if Bool.eqb s t then NaN else Inf s
  end.

(** [a > b]: false as soon as one side is [NaN]. *)
Definition gt (a b : number) : bool :=
  match a, b with
  | NaN, _ | _, NaN => false
  | Fin x, Fin y => negb (Qle_bool x y)
  | Inf s, Fin _ => negb s
  | Fin _, Inf s => s
  | Inf s, Inf t => negb s && t
  end.

(** [Math.max(a, b)] *)
Definition Math_max (a b : number) : number :=
  match a, b with
  | NaN, _ | _, NaN => NaN
  | _, _ => if gt a b then a else b
  end.

(** ** Values, truthiness and [||] *)

#[warnings="-register-all"]
Inductive value : Type :=
| VUndefined
| VNull
| VBool (b : bool)
| VNum (n : number)
| VStr (s : string)
| VArr (elems : list value).

Definition truthy_number (n : number) : bool :=
  match n with
  | NaN => false
  | Inf _ => true
  | Fin q => negb (Qzero q)
  end.

(** [ToBoolean] *)
Definition truthy (v : value) : bool :=
  match v with
  | VUndefined | VNull => false
  | VBool b => b
  | VNum n => truthy_number n
  | VStr s => negb (String.eqb s EmptyString)
  | VArr _ => true
  end.

(** [a || b] *)
Definition or (a b : value) : value := if truthy a then a else b.

(** [a || b] when both operands are numbers. *)
Definition or_number (a b : number) : number :=
  if truthy_number a then a else b.

(** ** Strings

    A string is a sequence of code units; [ascii] covers the code units
    below 256, which is all a colour descriptor uses. *)

(** [s.replace(/^#/, '')] *)
Definition strip_hash (s : string) : string :=
  match s with
  | String "#"%char rest => rest
  | _ => s
  end.

(** [s.charAt(i)] *)
Definition charAt (s : string) (i : nat) : string :=
  match String.get i s with
  | Some c => String c EmptyString
  | None => EmptyString
  end.

(** [s.substring(a, b)] *)
Definition substring (s : string) (a b : nat) : string :=
  let len := String.length s in
  let a' := Nat.min a len in
  let b' := Nat.min b len in
  String.substring (Nat.min a' b') (Nat.max a' b' - Nat.min a' b') s.

(** ** [parseInt(string, radix)] (ECMA-262, 19.2.5) *)

(** [StrWhiteSpaceChar] among the code units below 256:
    TAB, LF, VT, FF, CR, SP, NBSP. *)
Definition is_whitespace (c : ascii) : bool :=
  let n := N_of_ascii c in
  ((9 <=? n) && (n <=? 13) || (n =? 32) || (n =? 160))%N.

Fixpoint trim_start (s : string) : string :=
  match s with
  | String c rest => if is_whitespace c then trim_start rest else s
  | EmptyString => s
  end.

(** The value of a digit in the largest radix, 36. *)
Definition digit_of (c : ascii) : option Z :=
  let n := Z.of_N (N_of_ascii c) in
  (if (48 <=? n) && (n <=? 57) then Some (n - 48)
   else if (97 <=? n) && (n <=? 122) then Some (n - 87)
   else if (65 <=? n) && (n <=? 90) then Some (n - 55)
   else None)%Z.

Definition radix_digit (radix : Z) (c : ascii) : option Z :=
  match digit_of c with
  | Some d => if (d <? radix)%Z then Some d else None
  | None => None
  end.

(** The longest prefix of radix digits, accumulated most significant digit
    first; [None] when that prefix is empty. *)
Fixpoint digits_prefix (radix : Z) (s : string) (acc : option Z)
  : option Z :=
  match s with
  | String c rest =>
      match radix_digit radix c with
      | Some d =>
          let v := match acc with
                   | Some a => (a * radix + d)%Z
                   | None => d
                   end in
          digits_prefix radix rest (Some v)
      | None => acc
      end
  | EmptyString => acc
  end.

Definition strip_0x (s : string) : string :=
  match s with
  | String "0"%char (String "x"%char rest) => rest
  | String "0"%char (String "X"%char rest) => rest
  | _ => s
  end.

Definition parseInt (input : string) (radix : Z) : number :=
  let s := trim_start input in
  let sign := match s with String "-"%char _ => (-1)%Z | _ => 1%Z end in
  let s := match s with
           | String "+"%char rest | String "-"%char rest => rest
           | _ => s
           end in
  if ((radix =? 0) || (2 <=? radix) && (radix <=? 36))%Z then
    let stripPrefix := ((radix =? 0) || (radix =? 16))%Z in
    let s' := if stripPrefix then strip_0x s else s in
    let r := if (radix =? 0)%Z
             then (if String.eqb s' s then 10%Z else 16%Z)
             else radix in
    match digits_prefix r s' None with
    | None => NaN
    | Some mathInt => of_Z (sign * mathInt)
    end
  else NaN.

End JS.

(* ================================================================== *)
(** * class Aurora: the CPU side *)
(* ================================================================== *)

Module Aurora.

Import JS.
Local Open Scope Q_scope.
Local Open Scope string_scope.

(** ** [hexToRgb(hex)] *)

Definition hexToRgb (hex : string) : list number :=
  let hex := strip_hash hex in
  let '(r, g, b) :=
    if Nat.eqb (String.length hex) 3 then
      (div (parseInt (charAt hex 0 ++ charAt hex 0) 16) (of_Z 255),
       div (parseInt (charAt hex 1 ++ charAt hex 1) 16) (of_Z 255),
       div (parseInt (charAt hex 2 ++ charAt hex 2) 16) (of_Z 255))
    else
      (div (parseInt (substring hex 0 2) 16) (of_Z 255),
       div (parseInt (substring hex 2 4) 16) (of_Z 255),
       div (parseInt (substring hex 4 6) 16) (of_Z 255))
  in [r; g; b].

(** ** The fields of [this] and the host objects the methods read *)

(** The [options] argument of the constructor and [this.options]; a property
    that is absent reads as [VUndefined]. *)
Record Options : Type := mkOptions {
  colorStops : value;
  blend : value;
  amplitude : value;
  speed : value
}.

(** What [resizeCanvas] reads from the container element and from [window].
    The layout lengths are integers ([long] in the DOM interfaces);
    [devicePixelRatio] is a double, and reads as [NaN] here where a host
    leaves it undefined (both are falsy, and that is all the code asks). *)
Record Host : Type := mkHost {
  offsetWidth : Z;
  offsetHeight : Z;
  clientWidth : Z;
  clientHeight : Z;
  innerWidth : Z;
  innerHeight : Z;
  devicePixelRatio : number
}.

(** The part of the WebGL context state that the class writes outside
    initialisation: the viewport rectangle, the program in use and the
    [vec2] uniforms, by location. *)
Record GLState : Type := mkGL {
  viewport : number * number * number * number;
  program_in_use : option nat;
  uniforms2f : list (nat * (number * number))
}.

Definition gl_viewport (g : GLState) (x y w h : number) : GLState :=
  mkGL (x, y, w, h) (program_in_use g) (uniforms2f g).

Definition gl_useProgram (g : GLState) (p : nat) : GLState :=
  mkGL (viewport g) (Some p) (uniforms2f g).

Definition gl_uniform2f (g : GLState) (loc : nat) (a b : number) : GLState :=
  mkGL (viewport g) (program_in_use g)
       ((loc, (a, b))
          :: filter (fun e => negb (Nat.eqb (fst e) loc)) (uniforms2f g)).

Definition gl_getUniform2f (g : GLState) (loc : nat)
  : option (number * number) :=
  option_map snd (find (fun e => Nat.eqb (fst e) loc) (uniforms2f g)).

(** ** The canvas element

    [canvas.width] and [canvas.height] are [unsigned long] attributes that
    reflect content attributes.  An assigned number is first converted to
    [unsigned long] (Web IDL): [NaN] and the infinities give 0, the
    fractional part is dropped and the result is taken modulo 2^32.  The
    attribute then keeps it when it is at most 2147483647 and takes its
    default (300 for the width, 150 for the height) otherwise (HTML,
    reflection of an [unsigned long] with a default). *)
Definition Qtruncate (q : Q) : Z :=
  if Qle_bool 0 q then Qfloor q else Qceiling q.

Definition to_unsigned_long (n : number) : Z :=
  match n with
  | NaN | Inf _ => 0
  | Fin q => Qtruncate q mod 4294967296
  end.

Definition canvas_dimension (default : Z) (n : number) : Z :=
  let v := to_unsigned_long n in
  if (v <=? 2147483647)%Z then v else default.

(** [canvas.style.width] and [canvas.style.height] *)
Inductive css_length : Type :=
| Percent (n : number)
| Px (n : number).

(** [this].  [canvas_width] and [canvas_height] are what a read of
    [this.canvas.width] and [this.canvas.height] returns. *)
Record This : Type := mkThis {
  options : Options;
  canvas_width : number;
  canvas_height : number;
  style_width : css_length;
  style_height : css_length;
  gl : option GLState;
  program : option nat;
  resolutionLocation : option nat
}.

(** [this.canvas.width = w; this.canvas.height = h] *)
Definition set_canvas (this : This) (w h : number) : This :=
  mkThis (options this)
         (of_Z (canvas_dimension 300 w)) (of_Z (canvas_dimension 150 h))
         (style_width this) (style_height this)
         (gl this) (program this) (resolutionLocation this).

Definition set_style (this : This) (w h : css_length) : This :=
  mkThis (options this) (canvas_width this) (canvas_height this) w h
         (gl this) (program this) (resolutionLocation this).

Definition set_gl (this : This) (g : GLState) : This :=
  mkThis (options this) (canvas_width this) (canvas_height this)
         (style_width this) (style_height this)
         (Some g) (program this) (resolutionLocation this).

(** ** [resizeCanvas()]

    The two [console] calls of the [else] branch write no state and are
    left out. *)
Definition resizeCanvas (host : Host) (this : This) : This :=
  let containerWidth :=
    or_number (or_number (of_Z (offsetWidth host)) (of_Z (clientWidth host)))
              (of_Z (innerWidth host)) in
  let containerHeight :=
    or_number (or_number (of_Z (offsetHeight host)) (of_Z (clientHeight host)))
              (of_Z (innerHeight host)) in
  if gt containerWidth (of_Z 0) && gt containerHeight (of_Z 0) then
    let pixelRatio := or_number (devicePixelRatio host) (of_Z 1) in
    let this := set_canvas this (mul containerWidth pixelRatio)
                                (mul containerHeight pixelRatio) in
    let this := set_style this (Px containerWidth) (Px containerHeight) in
    match gl this with
    | Some g =>
        let g := gl_viewport g (of_Z 0) (of_Z 0)
                             (canvas_width this) (canvas_height this) in
        let g :=
          match program this, resolutionLocation this with
          | Some p, Some loc =>
              gl_uniform2f (gl_useProgram g p) loc
                           (canvas_width this) (canvas_height this)
          | _, _ => g
          end in
        set_gl this g
    | None => this
    end
  else
    let pixelRatio := or_number (devicePixelRatio host) (of_Z 1) in
    set_canvas this
      (mul (Math_max (of_Z (innerWidth host)) (of_Z 1200)) pixelRatio)
      (mul (Math_max (of_Z 500) (mul (of_Z (innerHeight host)) (Fin 0.6)))
           pixelRatio).

(** ** [constructor(container, options = {})]

    The canvas element is created with the default 300 x 150 backing
    store, styled, and resized once.  Registering the resize listener and
    the timer that later calls [initWebGL] changes no field. *)
Definition defaultColorStops : value :=
  VArr [VStr "#3A29FF"; VStr "#FF94B4"; VStr "#FF3232"].

Definition constructor (host : Host) (arg : option Options) : This :=
  let options :=
    match arg with
    | Some o => o
    | None => mkOptions VUndefined VUndefined VUndefined VUndefined
    end in
  let this :=
    mkThis
      (mkOptions (or (colorStops options) defaultColorStops)
                 (or (blend options) (VNum (Fin 0.5)))
                 (or (amplitude options) (VNum (Fin 1.0)))
                 (or (speed options) (VNum (Fin 0.5))))
      (of_Z 300) (of_Z 150)
      (Percent (of_Z 100)) (Percent (of_Z 100))
      None None None in
  resizeCanvas host this.

(** ** [fallbackToCanvas2D()] *)

(** A [CanvasGradient]: the line it is laid along and its colour stops in
    the order they were added. *)
Record Gradient : Type := mkGradient {
  g_x0 : number;
  g_y0 : number;
  g_x1 : number;
  g_y1 : number;
  g_stops : list (number * value)
}.

Definition createLinearGradient (x0 y0 x1 y1 : number) : Gradient :=
  mkGradient x0 y0 x1 y1 [].

(** The calls made on the 2D context. *)
Inductive call2d : Type :=
| ClearRect (x y w h : number)
| SetFillStyle (g : Gradient)
| FillRect (x y w h : number).

(** A callback handed to [requestAnimationFrame]: the closure [animate],
    which captures the context and the gradient. *)
Inductive callback : Type :=
| Animate2D (gradient : Gradient).

(** How a call ends: normally, or with one of the exceptions the methods
    below and the host raise. *)
Inductive completion (A : Type) : Type :=
| Normal (a : A)
| ThrowTypeError
| ThrowIndexSizeError
| ThrowSyntaxError.
Arguments Normal {A} a.
Arguments ThrowTypeError {A}.
Arguments ThrowIndexSizeError {A}.
Arguments ThrowSyntaxError {A}.

Section Canvas2D.

(** Whether the host, having converted the value to a string, parses it as
    a CSS colour.  The grammar of CSS colours belongs to the host. *)
Variable css_colour : value -> bool.

(** [gradient.addColorStop(offset, color)]: a [TypeError] for an offset
    that is not a finite number, an [IndexSizeError] for one outside
    [0,1], a [SyntaxError] for a colour that does not parse; otherwise the
    stop is added. *)
Definition addColorStop (g : Gradient) (offset : number) (color : value)
  : completion Gradient :=
  match offset with
  | NaN | Inf _ => ThrowTypeError
  | Fin q =>
      if Qle_bool 0 q && Qle_bool q 1 then
        if css_colour color then
          Normal (mkGradient (g_x0 g) (g_y0 g) (g_x1 g) (g_y1 g)
                             (g_stops g ++ [(offset, color)]))
        else ThrowSyntaxError
      else ThrowIndexSizeError
  end.

(** [array.forEach((color, index) => gradient.addColorStop(...))]: an
    exception in the callback ends the loop. *)
Fixpoint forEach_addColorStop (g : Gradient) (len : nat) (index : nat)
  (elems : list value) : completion Gradient :=
  match elems with
  | [] => Normal g
  | color :: rest =>
      match addColorStop g
              (div (of_Z (Z.of_nat index))
                   (sub (of_Z (Z.of_nat len)) (of_Z 1)))
              color with
      | Normal g => forEach_addColorStop g len (S index) rest
      | thrown => thrown
      end
  end.

(** One run of the closure [animate]: the calls it makes on the context and
    the callback it schedules.  [this] is read when the frame runs. *)
Definition animate2D (this : This) (gradient : Gradient)
  : list call2d * option callback :=
  ([ClearRect (of_Z 0) (of_Z 0) (canvas_width this) (canvas_height this);
    SetFillStyle gradient;
    FillRect (of_Z 0) (of_Z 0) (canvas_width this) (canvas_height this)],
   Some (Animate2D gradient)).

(** [ctx2d] tells whether [canvas.getContext('2d')] yields a context.  The
    result is the calls made before the method returns and the callback
    left scheduled.  Only an array has [forEach]; an exception raised in
    the loop leaves the method before [animate] is reached. *)
Definition fallbackToCanvas2D (this : This) (ctx2d : bool)
  : completion (list call2d * option callback) :=
  if negb ctx2d then Normal ([], None)
  else
    let gradient :=
      createLinearGradient (of_Z 0) (of_Z 0) (canvas_width this) (of_Z 0) in
    match colorStops (options this) with
    | VArr elems =>
        match forEach_addColorStop gradient (List.length elems) 0 elems with
        | Normal gradient => Normal (animate2D this gradient)
        | ThrowTypeError => ThrowTypeError
        | ThrowIndexSizeError => ThrowIndexSizeError
        | ThrowSyntaxError => ThrowSyntaxError
        end
    | _ => ThrowTypeError
    end.

End Canvas2D.

(** The display refresh: each element of [ticks] is [this] as it stands
    when the host runs the scheduled callback (the canvas may have been
    resized in between). *)
Definition run_callback (cb : callback) (this : This)
  : list call2d * option callback :=
  match cb with
  | Animate2D gradient => animate2D this gradient
  end.

Fixpoint frames (pending : option callback) (ticks : list This)
  : list (list call2d) :=
  match pending, ticks with
  | Some cb, this :: rest =>
      let '(calls, next) := run_callback cb this in
      calls :: frames next rest
  | _, _ => []
  end.

End Aurora.

(* ================================================================== *)
(** * The fragment shaders *)
(* ================================================================== *)

Module GLSL.

Local Open Scope R_scope.

(** ** Vectors and built-in functions *)

Record vec2 : Type := Vec2 { x2 : R; y2 : R }.
Record vec3 : Type := Vec3 { x3 : R; y3 : R; z3 : R }.
Record vec4 : Type := Vec4 { x4 : R; y4 : R; z4 : R; w4 : R }.

Definition map2 (f : R -> R) (v : vec2) : vec2 := Vec2 (f (x2 v)) (f (y2 v)).
Definition map3 (f : R -> R) (v : vec3) : vec3 :=
  Vec3 (f (x3 v)) (f (y3 v)) (f (z3 v)).
Definition zip2 (f : R -> R -> R) (a b : vec2) : vec2 :=
  Vec2 (f (x2 a) (x2 b)) (f (y2 a) (y2 b)).
Definition zip3 (f : R -> R -> R) (a b : vec3) : vec3 :=
  Vec3 (f (x3 a) (x3 b)) (f (y3 a) (y3 b)) (f (z3 a) (z3 b)).

Definition dot2 (a b : vec2) : R := x2 a * x2 b + y2 a * y2 b.
Definition dot3 (a b : vec3) : R := x3 a * x3 b + y3 a * y3 b + z3 a * z3 b.

Definition floor (x : R) : R := IZR (Zfloor x).
Definition fract (x : R) : R := x - floor x.
Definition fmod (x y : R) : R := x - y * floor (x / y).
Definition mix (x y a : R) : R := x * (1 - a) + y * a.
Definition clamp (x lo hi : R) : R := Rmin (Rmax x lo) hi.
Definition smoothstep (edge0 edge1 x : R) : R :=
  let t := clamp ((x - edge0) / (edge1 - edge0)) 0 1 in
  t * t * (3 - 2 * t).

(** [float(b)], [float(i)] and [int(x)] (conversion to [int] drops the
    fractional part). *)
Definition float_of_bool (b : bool) : R := if b then 1 else 0.
Definition float_of_int (i : Z) : R := IZR i.
Definition int_of_float (x : R) : Z :=
  if Rle_dec 0 x then Zfloor x else Zceil x.

Definition leb (a b : R) : bool := if Rle_dec a b then true else false.
Definition gtb (a b : R) : bool := if Rlt_dec b a then true else false.

(** ** [permute] and [snoise] *)

Definition permute (x : vec3) : vec3 :=
  map3 (fun c => fmod ((c * 34 + 1) * c) 289) x.

Definition snoise (v : vec2) : R :=
  let C := Vec4 0.211324865405187 0.366025403784439
                (-0.577350269189626) 0.024390243902439 in
  let i := map2 floor (map2 (fun c => c + dot2 v (Vec2 (y4 C) (y4 C))) v) in
  let x0 := map2 (fun c => c + dot2 i (Vec2 (x4 C) (x4 C))) (zip2 Rminus v i) in
  let i1 := if gtb (x2 x0) (y2 x0) then Vec2 1 0 else Vec2 0 1 in
  let x12 := Vec4 (x2 x0 + x4 C) (y2 x0 + x4 C) (x2 x0 + z4 C) (y2 x0 + z4 C) in
  let x12 := Vec4 (x4 x12 - x2 i1) (y4 x12 - y2 i1) (z4 x12) (w4 x12) in
  let i := map2 (fun c => fmod c 289) i in
  let p := permute
             (zip3 Rplus
                (map3 (fun c => c + x2 i)
                   (permute (map3 (fun c => y2 i + c) (Vec3 0 (y2 i1) 1))))
                (Vec3 0 (x2 i1) 1)) in
  let m := map3 (fun c => Rmax c 0)
             (map3 (fun c => 0.5 - c)
                (Vec3 (dot2 x0 x0)
                      (dot2 (Vec2 (x4 x12) (y4 x12)) (Vec2 (x4 x12) (y4 x12)))
                      (dot2 (Vec2 (z4 x12) (w4 x12)) (Vec2 (z4 x12) (w4 x12))))) in
  let m := zip3 Rmult m m in
  let m := zip3 Rmult m m in
  let x := map3 (fun c => 2 * fract (c * w4 C) - 1) p in
  let h := map3 (fun c => Rabs c - 0.5) x in
  let ox := map3 (fun c => floor (c + 0.5)) x in
  let a0 := zip3 Rminus x ox in
  let m := zip3 Rmult m
             (map3 (fun c => 1.79284291400159 - 0.85373472095314 * c)
                (zip3 Rplus (zip3 Rmult a0 a0) (zip3 Rmult h h))) in
  let g := Vec3 (x3 a0 * x2 x0 + x3 h * y2 x0)
                (y3 a0 * x4 x12 + y3 h * y4 x12)
                (z3 a0 * z4 x12 + z3 h * w4 x12) in
  130 * dot3 m g.

(** ** The colour ramp, in its two forms *)

Record ColorStop : Type := mkColorStop { color : vec3; position : R }.

(** [colors[i]] for a local array; an index outside the array is not
    reached by either ramp and reads as a black stop at 0. *)
Definition at_index (colors : list ColorStop) (i : Z) : ColorStop :=
  if (i <? 0)%Z then mkColorStop (Vec3 0 0 0) 0
  else nth (Z.to_nat i) colors (mkColorStop (Vec3 0 0 0) 0).

Definition mix3 (a b : vec3) (t : R) : vec3 :=
  Vec3 (mix (x3 a) (x3 b) t) (mix (y3 a) (y3 b) t) (mix (z3 a) (z3 b) t).

(** The body shared by the macro and the function after their loops. *)
Definition ramp_from (colors : list ColorStop) (index : Z) (factor : R)
  : vec3 :=
  let currentColor := at_index colors index in
  let nextColor := at_index colors (index + 1) in
  let range := position nextColor - position currentColor in
  let lerpFactor := (factor - position currentColor) / range in
  mix3 (color currentColor) (color nextColor) lerpFactor.

(** [#define COLOR_RAMP(colors, factor, finalColor)] of the
    [#version 300 es] shader; the result is what it assigns to
    [finalColor]. *)
Definition COLOR_RAMP (colors : list ColorStop) (factor : R) : vec3 :=
  let index :=
    fold_left
      (fun index i =>
         let currentColor := at_index colors i in
         let isInBetween := leb (position currentColor) factor in
         int_of_float (mix (float_of_int index) (float_of_int i)
                           (float_of_bool isInBetween)))
      [0%Z; 1%Z] 0%Z in
  ramp_from colors index factor.

(** [vec3 colorRamp(ColorStop colors[3], float factor)] of the WebGL 1
    shader. *)
Definition colorRamp (colors : list ColorStop) (factor : R) : vec3 :=
  let index :=
    fold_left
      (fun index i =>
         let currentColor := at_index colors i in
         if leb (position currentColor) factor then i else index)
      [0%Z; 1%Z] 0%Z in
  ramp_from colors index factor.

(** ** [main] *)

Record Uniforms : Type := mkUniforms {
  uTime : R;
  uAmplitude : R;
  uColorStops : vec3 * vec3 * vec3;
  uResolution : vec2;
  uBlend : R
}.

(** The three stops [main] builds from [uColorStops]. *)
Definition main_colors (u : Uniforms) : list ColorStop :=
  let '(c0, c1, c2) := uColorStops u in
  [mkColorStop c0 0.0; mkColorStop c1 0.5; mkColorStop c2 1.0].

(** The two [main] functions differ in how [rampColor] is obtained and in
    the name of the output variable only; [ramp] is that difference and
    the result is the value written to the output. *)
Definition main_with (ramp : list ColorStop -> R -> vec3)
  (u : Uniforms) (gl_FragCoord : vec4) : vec4 :=
  let uv := zip2 Rdiv (Vec2 (x4 gl_FragCoord) (y4 gl_FragCoord))
                      (uResolution u) in
  let colors := main_colors u in
  let rampColor := ramp colors (x2 uv) in
  let height :=
    snoise (Vec2 (x2 uv * 2.0 + uTime u * 0.1) (uTime u * 0.25))
    * 0.5 * uAmplitude u in
  let height := exp height in
  let height := y2 uv * 2.0 - height + 0.2 in
  let intensity := 0.6 * height in
  let midPoint := 0.20 in
  let auroraAlpha :=
    smoothstep (midPoint - uBlend u * 0.5) (midPoint + uBlend u * 0.5)
               intensity in
  let auroraColor := map3 (fun c => intensity * c) rampColor in
  Vec4 (x3 auroraColor * auroraAlpha) (y3 auroraColor * auroraAlpha)
       (z3 auroraColor * auroraAlpha) auroraAlpha.

(** [fragColor] of the [#version 300 es] shader. *)
Definition main_webgl2 : Uniforms -> vec4 -> vec4 := main_with COLOR_RAMP.

(** [gl_FragColor] of the WebGL 1 shader. *)
Definition main_webgl1 : Uniforms -> vec4 -> vec4 := main_with colorRamp.

End GLSL.

Import JS Aurora GLSL.

(* ================================================================== *)
(** * Vocabulary of the statements *)
(* ================================================================== *)

Module Spec.

Local Open Scope Q_scope.

(** A hexadecimal digit and its value. *)
Definition hex_digit (c : ascii) : bool :=
  match radix_digit 16 c with Some _ => true | None => false end.

Definition hex_value (c : ascii) : Z :=
  match radix_digit 16 c with Some d => d | None => 0%Z end.

(** [n] characters, all of them hexadecimal digits. *)
Definition hex_digits (n : nat) (s : string) : bool :=
  Nat.eqb (String.length s) n && forallb hex_digit (list_ascii_of_string s).

(** The number written by the two digits at [i] and [i + 1]. *)
Definition digit_pair (s : string) (i : nat) : Z :=
  match String.get i s, String.get (S i) s with
  | Some a, Some b => 16 * hex_value a + hex_value b
  | _, _ => 0
  end.

(** Each character written twice. *)
Fixpoint duplicate (s : string) : string :=
  match s with
  | String c rest => String c (String c (duplicate rest))
  | EmptyString => EmptyString
  end.

(** A finite channel equal to [q]. *)
Definition channel_is (n : number) (q : Q) : Prop :=
  match n with Fin x => x == q | _ => False end.

(** The first non-zero of three integer lengths, as [a || b || c] picks
    it. *)
Definition first_nonzero (a b c : Z) : Z :=
  if (a =? 0)%Z then (if (b =? 0)%Z then c else b) else a.

(** The pixel ratio the method works with: [devicePixelRatio || 1]. *)
Definition pixelRatio (host : Host) : number :=
  or_number (devicePixelRatio host) (of_Z 1).

(** The container lengths the method works with. *)
Definition containerWidth (host : Host) : Z :=
  first_nonzero (offsetWidth host) (clientWidth host) (innerWidth host).
Definition containerHeight (host : Host) : Z :=
  first_nonzero (offsetHeight host) (clientHeight host) (innerHeight host).

(** The three calls of one frame. *)
Definition repaint (gradient : Gradient) (this : This) : list call2d :=
  [ClearRect (of_Z 0) (of_Z 0) (canvas_width this) (canvas_height this);
   SetFillStyle gradient;
   FillRect (of_Z 0) (of_Z 0) (canvas_width this) (canvas_height this)].

(** The offset [index / (n - 1)], as the division yields it. *)
Definition even_offset (index n : nat) : number :=
  Fin (inject_Z (Z.of_nat index) / (inject_Z (Z.of_nat n) - inject_Z 1)).

(** The stops of [elems], the first of them at [index / (n - 1)]. *)
Fixpoint even_stops (n index : nat) (elems : list value)
  : list (number * value) :=
  match elems with
  | [] => []
  | c :: rest => (even_offset index n, c) :: even_stops n (S index) rest
  end.

End Spec.

Import Spec.

(* ================================================================== *)
(** * class Aurora: the frame loop of the GPU pipeline *)
(* ================================================================== *)

Module Pipeline.

Local Open Scope Q_scope.

(** ** The colour stops handed to the shader

    [this.options.colorStops.map(hex => this.hexToRgb(hex))] of
    [initWebGL].  Only an array has [map], and only a string has the
    [replace] that [hexToRgb] starts with. *)
Fixpoint map_hexToRgb (elems : list value)
  : completion (list (list number)) :=
  match elems with
  | [] => Normal []
  | VStr hex :: rest =>
      match map_hexToRgb rest with
      | Normal tl => Normal (hexToRgb hex :: tl)
      | thrown => thrown
      end
  | _ :: _ => ThrowTypeError
  end.

Definition convertColorStops (stops : value)
  : completion (list (list number)) :=
  match stops with
  | VArr elems => map_hexToRgb elems
  | _ => ThrowTypeError
  end.

(** ** The geometry

    [new Float32Array([-1, -1, 3, -1, -1, 3])] of [initWebGL], read two
    components per vertex as [vertexAttribPointer(location, 2, ...)] sets
    it up, and the vertex shader [gl_Position = vec4(position, 0.0, 1.0)],
    the same in both shader versions. *)
Definition vertices : list Q := [-1; -1; 3; -1; -1; 3].

Definition vertex_position (i : nat) : Q * Q :=
  (nth (2 * i) vertices 0, nth (2 * i + 1) vertices 0).

Definition vertex_main (position : Q * Q) : Q * Q * Q * Q :=
  (fst position, snd position, 0, 1).

(** ** [animate()] *)

(** [gl.drawArrays(mode, first, count)] *)
Inductive draw_mode : Type := TRIANGLES.
Inductive draw_call : Type :=
| DrawArrays (mode : draw_mode) (first count : nat).

(** What a successful [initWebGL] leaves for [animate]: the fields of
    [this] not in [This], and the part of the context state that only
    [animate] writes (the [float] and [vec3] array uniforms by location,
    and the draw calls issued so far). *)
Record Running : Type := mkRunning {
  r_this : This;
  timeLocation : option nat;
  amplitudeLocation : option nat;
  colorStopsLocation : option nat;
  blendLocation : option nat;
  colorStopsArray : list (list number);
  startTime : number;
  uniforms1f : list (nat * number);
  uniforms3fv : list (nat * list number);
  draws : list draw_call
}.

(** Writing a uniform: a [null] location is ignored. *)
Definition set_uniform {A : Type} (loc : option nat) (v : A)
  (store : list (nat * A)) : list (nat * A) :=
  match loc with
  | Some l => (l, v) :: filter (fun e => negb (Nat.eqb (fst e) l)) store
  | None => store
  end.

Definition get_uniform {A : Type} (loc : nat) (store : list (nat * A))
  : option A :=
  option_map snd (find (fun e => Nat.eqb (fst e) loc) store).

(** The closure handed to [requestAnimationFrame]. *)
Inductive callback3d : Type := Animate3D.

Section Animate.

(** The conversion the language applies to a value used as a number (in
    [time * this.options.speed], and for the argument of [uniform1f]). *)
Variable ToNumber : value -> number.

(** One frame.  [host] is what the container and the window report when
    the frame runs and [now] is [performance.now()].  The result is the
    state the frame leaves and how it ends: with the next frame scheduled,
    or with the [TypeError] of [this.gl.viewport] when there is no
    context (the canvas has been resized by then). *)
Definition with_this (r : Running) (this : This) : Running :=
  mkRunning this (timeLocation r) (amplitudeLocation r)
            (colorStopsLocation r) (blendLocation r)
            (colorStopsArray r) (startTime r)
            (uniforms1f r) (uniforms3fv r) (draws r).

Definition animate (host : Host) (now : number) (r : Running)
  : Running * completion callback3d :=
  let this := resizeCanvas host (r_this r) in
  match gl this with
  | None => (with_this r this, ThrowTypeError)
  | Some g =>
      let g := gl_viewport g (of_Z 0) (of_Z 0)
                           (canvas_width this) (canvas_height this) in
      let currentTime := now in
      let time := div (sub currentTime (startTime r)) (of_Z 1000) in
      let u1 := set_uniform (timeLocation r)
                            (mul time (ToNumber (speed (options this))))
                            (uniforms1f r) in
      let u1 := set_uniform (amplitudeLocation r)
                            (ToNumber (amplitude (options this))) u1 in
      let g := match resolutionLocation this with
               | Some loc => gl_uniform2f g loc (canvas_width this)
                                          (canvas_height this)
               | None => g
               end in
      let u1 := set_uniform (blendLocation r)
                            (ToNumber (blend (options this))) u1 in
      let flatColorArray := concat (colorStopsArray r) in
      let u3 := set_uniform (colorStopsLocation r) flatColorArray
                            (uniforms3fv r) in
      let draws := draws r ++ [DrawArrays TRIANGLES 0 3] in
      (mkRunning (set_gl this g)
                 (timeLocation r) (amplitudeLocation r)
                 (colorStopsLocation r) (blendLocation r)
                 (colorStopsArray r) (startTime r) u1 u3 draws,
       Normal Animate3D)
  end.

(** The display refresh: each element of [ticks] is what the host reports
    and the clock reading when it runs the scheduled callback.  A frame
    that throws schedules nothing. *)
Fixpoint run_frames (pending : option callback3d) (r : Running)
  (ticks : list (Host * number)) : Running * option callback3d :=
  match pending, ticks with
  | Some Animate3D, (host, now) :: rest =>
      match animate host now r with
      | (r', Normal next) => run_frames (Some next) r' rest
      | (r', _) => (r', None)
      end
  | _, _ => (r, pending)
  end.

End Animate.

(** A conversion that agrees with the language on [undefined], [null],
    booleans and numbers only (the language also parses strings and
    arrays, which are sent to [NaN] here).  The statements about [animate]
    hold for every conversion; this one instantiates them where the
    options are numbers. *)
Definition number_or_NaN (v : value) : number :=
  match v with
  | VNull => of_Z 0
  | VBool b => of_Z (if b then 1 else 0)
  | VNum n => n
  | VUndefined | VStr _ | VArr _ => NaN
  end.

End Pipeline.

Import Pipeline.

(* ================================================================== *)
(** * Further vocabulary *)
(* ================================================================== *)

Module Vocabulary.

Local Open Scope Q_scope.

(** A property of all 256 code units, by evaluation. *)
Definition both (f : bool -> bool) : bool := f true && f false.

Definition every_ascii (p : ascii -> bool) : bool :=
  both (fun b0 => both (fun b1 => both (fun b2 => both (fun b3 =>
  both (fun b4 => both (fun b5 => both (fun b6 => both (fun b7 =>
    p (Ascii b0 b1 b2 b3 b4 b5 b6 b7))))))))).

(** A channel that is [NaN] or k/255 for a whole k between -15 and 255. *)
Definition channel_in_range (n : number) : bool :=
  match n with
  | NaN => true
  | Inf _ => false
  | Fin q =>
      Qle_bool (-15 # 255) q && Qle_bool q 1
      && Z.eqb (Zpos (Qden q)) 255
  end.

(** A channel in the unit interval. *)
Definition unit_channel (n : number) : Prop :=
  match n with Fin q => 0 <= q <= 1 | _ => False end.

(** A colour descriptor as the class expects it: three or six hexadecimal
    digits after an optional [#]. *)
Definition well_formed_colour (s : string) : bool :=
  hex_digits 6 (strip_hash s) || hex_digits 3 (strip_hash s).

(** The gradient the fallback hands to its frames, when it gets that
    far. *)
Definition fallback_gradient (css_colour : value -> bool) (this : This)
  : option Gradient :=
  match fallbackToCanvas2D css_colour this true with
  | Normal (_, Some (Animate2D gradient)) => Some gradient
  | _ => None
  end.

(** A host that accepts the hexadecimal notations of CSS ([#] followed by
    3, 4, 6 or 8 hexadecimal digits) and no other colour.  Every host
    accepts these; this one stands in where a concrete host is needed. *)
Definition hex_notation (v : value) : bool :=
  match v with
  | VStr (String "#"%char digits) =>
      hex_digits 3 digits || hex_digits 4 digits
      || hex_digits 6 digits || hex_digits 8 digits
  | _ => false
  end.

(** The three slices [hexToRgb] reads of a descriptor without its [#]:
    each character twice when there are exactly three, else the characters
    at 0-1, 2-3 and 4-5 (as far as they exist). *)
Definition colour_slices (h : string) : list string :=
  match list_ascii_of_string h with
  | [a; b; c] =>
      [String a (String a ""); String b (String b "");
       String c (String c "")]%string
  | l =>
      [string_of_list_ascii (firstn 2 l);
       string_of_list_ascii (firstn 2 (skipn 2 l));
       string_of_list_ascii (firstn 2 (skipn 4 l))]
  end.

(** A slice of at most two characters that reads as a hexadecimal number:
    a hexadecimal digit, alone or followed by anything but the [x] of a
    [0x] prefix, or one blank or sign followed by a hexadecimal digit. *)
Definition reads_as_number (slice : string) : bool :=
  match slice with
  | String a EmptyString => hex_digit a
  | String a (String b EmptyString) =>
      hex_digit a
      && negb (Ascii.eqb a "0" && (Ascii.eqb b "x" || Ascii.eqb b "X"))
      || (is_whitespace a || Ascii.eqb a "+" || Ascii.eqb a "-")
         && hex_digit b
  | _ => false
  end.




(** The edge function of rasterisation: positive when [p] lies to the
    left of the edge from [a] to [b]. *)
Definition edge (a b p : Q * Q) : Q :=
  (fst b - fst a) * (snd p - snd a) - (snd b - snd a) * (fst p - fst a).

(** Where vertex [i] lands in normalised device coordinates: the
    position the vertex shader outputs, divided by its w. *)
Definition device_xy (i : nat) : Q * Q :=
  let '(x, y, _, w) := vertex_main (vertex_position i) in (x / w, y / w).

(** [p] is covered by the triangle drawn from vertices 0, 1 and 2. *)
Definition covered (p : Q * Q) : Prop :=
  let a := device_xy 0 in
  let b := device_xy 1 in
  let c := device_xy 2 in
  0 <= edge a b p /\ 0 <= edge b c p /\ 0 <= edge c a p.

(** A vector of the shader whose components all lie in [0,1]. *)
Definition unit_vec3 (v : vec3) : Prop :=
  (0 <= x3 v <= 1 /\ 0 <= y3 v <= 1 /\ 0 <= z3 v <= 1)%R.

(** A pipeline state as [initWebGL] leaves it for the first frame, with
    the default options: context, program and all locations in place. *)
Definition started (host : Host) (stops : list (list number)) : Running :=
  let this := constructor host None in
  mkRunning
    (mkThis (options this) (canvas_width this) (canvas_height this)
            (style_width this) (style_height this)
            (Some (mkGL (of_Z 0, of_Z 0, of_Z 300, of_Z 150)
                        (Some 1%nat) []))
            (Some 1%nat) (Some 3%nat))
    (Some 0%nat) (Some 1%nat) (Some 2%nat) (Some 4%nat)
    stops (Fin 0) [] [] [].

End Vocabulary.

Import Vocabulary.

(* ================================================================== *)
(** * hexToRgb *)
(* ================================================================== *)

Ltac bits c := destruct c as [[] [] [] [] [] [] [] []].

Section HexToRgb.

Local Open Scope string_scope.
Local Open Scope Q_scope.

Lemma hex_value_range (c : ascii) : (0 <= hex_value c <= 15)%Z.
Proof. bits c; vm_compute; split; discriminate. Qed.

Lemma strip_hash_hex (c : ascii) (rest : string) :
  hex_digit c = true -> strip_hash (String c rest) = String c rest.
Proof. bits c; intros H; try discriminate H; reflexivity. Qed.

Lemma parseInt_hex_pair (a b : ascii) :
  hex_digit a = true -> hex_digit b = true ->
  parseInt (String a (String b "")) 16
  = of_Z (16 * hex_value a + hex_value b).
Proof.
  intros Ha Hb.
  bits a; try discriminate Ha; bits b; try discriminate Hb; reflexivity.
Qed.

Lemma parseInt_doubled_not_hex (c : ascii) :
  hex_digit c = false -> parseInt (String c (String c "")) 16 = NaN.
Proof. intros H. bits c; try discriminate H; reflexivity. Qed.

Lemma pair_over_255_range (z : Z) :
  (0 <= z <= 255)%Z -> 0 <= inject_Z z / inject_Z 255 <= 1.
Proof.
  intros [H0 H1]. unfold Qle, Qdiv, Qmult, Qinv, inject_Z. simpl. lia.
Qed.

Lemma digit_pair_range (s : string) (i : nat) :
  (0 <= digit_pair s i <= 255)%Z.
Proof.
  unfold digit_pair.
  destruct (String.get i s) as [a|]; [|lia].
  destruct (String.get (S i) s) as [b|]; [|lia].
  pose proof (hex_value_range a). pose proof (hex_value_range b). lia.
Qed.

Ltac split_hex H :=
  unfold hex_digits in H; simpl in H;
  repeat (apply andb_prop in H; let H' := fresh "Hd" in destruct H as [H' H]).

(** C5.  A string of six hexadecimal digits, with or without a leading
    [#], is mapped to the three channels [digit pair / 255], each of them
    in [0,1]; a string of three hexadecimal digits is mapped to the same
    triple as the six-digit string that writes each digit twice; and
    ["#fff"] and ["#ffffff"] both give (1,1,1). *)
Theorem hexToRgb_hex_digits (s6 s3 : string) :
  hex_digits 6 s6 = true ->
  hex_digits 3 s3 = true ->
  (forall p, p = "" \/ p = "#" ->
     hexToRgb (p ++ s6)
     = [Fin (inject_Z (digit_pair s6 0) / inject_Z 255);
        Fin (inject_Z (digit_pair s6 2) / inject_Z 255);
        Fin (inject_Z (digit_pair s6 4) / inject_Z 255)])
  /\ (forall i, 0 <= inject_Z (digit_pair s6 i) / inject_Z 255 <= 1)
  /\ (forall p, p = "" \/ p = "#" ->
       hexToRgb (p ++ s3) = hexToRgb (p ++ duplicate s3))
  /\ Forall (fun n => channel_is n 1) (hexToRgb "#fff")
  /\ Forall (fun n => channel_is n 1) (hexToRgb "#ffffff")
  /\ hexToRgb "#fff" = hexToRgb "#ffffff".
Proof.
  intros H6 H3.
  destruct s6 as [|a [|b [|c [|d [|e [|f [|? ?]]]]]]]; try discriminate H6.
  destruct s3 as [|u [|v [|w [|? ?]]]]; try discriminate H3.
  split_hex H6. split_hex H3.
  assert (body6 :
    hexToRgb ("#" ++ String a (String b (String c (String d (String e (String f ""))))))
    = [Fin (inject_Z (16 * hex_value a + hex_value b) / inject_Z 255);
       Fin (inject_Z (16 * hex_value c + hex_value d) / inject_Z 255);
       Fin (inject_Z (16 * hex_value e + hex_value f) / inject_Z 255)]).
  { unfold hexToRgb. cbn [append strip_hash String.length Nat.eqb].
    cbv [substring]. cbn [String.length Nat.min Nat.max Nat.sub String.substring].
    rewrite !parseInt_hex_pair by assumption. reflexivity. }
  repeat split.
  - intros p [-> | ->].
    + unfold hexToRgb in *. cbn [append] in *.
      rewrite strip_hash_hex by assumption. exact body6.
    + exact body6.
  - apply pair_over_255_range, digit_pair_range.
  - apply pair_over_255_range, digit_pair_range.
  - intros p Hp.
    assert (E : hexToRgb ("#" ++ String u (String v (String w "")))
                = hexToRgb ("#" ++ duplicate (String u (String v (String w ""))))).
    { reflexivity. }
    destruct Hp as [-> | ->]; [|exact E].
    unfold hexToRgb in *. cbn [append duplicate] in *.
    rewrite !strip_hash_hex by assumption. exact E.
  - repeat constructor; reflexivity.
  - repeat constructor; reflexivity.
Qed.

Lemma hexToRgb_hex_digits_witness :
  hex_digits 6 "3A29FF" = true /\ hex_digits 3 "fa0" = true
  /\ hexToRgb "#3A29FF" = [Fin (58 # 255); Fin (41 # 255); Fin (255 # 255)]
  /\ hexToRgb "fa0" = hexToRgb "ffaa00".
Proof.
  pose proof (hexToRgb_hex_digits "3A29FF" "fa0" eq_refl eq_refl)
    as (H6 & _ & H3 & _).
  split; [reflexivity|]. split; [reflexivity|]. split.
  - exact (H6 "#" (or_intror eq_refl)).
  - exact (H3 "" (or_introl eq_refl)).
Defined.

(** What the method does with input that is not 3 or 6 hexadecimal
    digits.  The method has no failure path: it always returns three
    numbers. *)

Lemma hexToRgb_three_channels (s : string) : List.length (hexToRgb s) = 3%nat.
Proof.
  unfold hexToRgb.
  destruct (Nat.eqb (String.length (strip_hash s)) 3); reflexivity.
Qed.

(** C6, counterexample.  Eight hexadecimal digits are neither three nor
    six, and six characters the last of which is no digit are not six
    digits; yet both come back as three finite channels, with no [NaN]
    among them. *)
Lemma hexToRgb_malformed_accepted :
  hex_digits 3 (strip_hash "ffffffff") = false
  /\ hex_digits 6 (strip_hash "ffffffff") = false
  /\ hexToRgb "ffffffff" = [Fin (255 # 255); Fin (255 # 255); Fin (255 # 255)]
  /\ existsb is_NaN (hexToRgb "ffffffff") = false
  /\ hex_digits 6 (strip_hash "#00ff0g") = false
  /\ existsb is_NaN (hexToRgb "#00ff0g") = false.
Proof. repeat split. Qed.

End HexToRgb.

(* ================================================================== *)
(** * resizeCanvas *)
(* ================================================================== *)

Ltac fields :=
  cbn [set_canvas set_style set_gl options canvas_width canvas_height
       style_width style_height gl program resolutionLocation].

Section ResizeCanvas.

Local Open Scope Q_scope.

Lemma truthy_of_Z (z : Z) : truthy_number (of_Z z) = negb (z =? 0)%Z.
Proof. destruct z; reflexivity. Qed.

Lemma or_number_of_Z (a b c : Z) :
  or_number (or_number (of_Z a) (of_Z b)) (of_Z c)
  = of_Z (first_nonzero a b c).
Proof.
  destruct a, b; reflexivity.
Qed.

Lemma gt_of_Z_0 (z : Z) : gt (of_Z z) (of_Z 0) = (0 <? z)%Z.
Proof. destruct z; reflexivity. Qed.

Lemma options_resizeCanvas (host : Host) (this : This) :
  options (resizeCanvas host this) = options this.
Proof.
  unfold resizeCanvas.
  destruct (_ && _); [fields; destruct (gl this)|]; reflexivity.
Qed.















(** The [if] branch brings the GPU state in line with the canvas... *)
Lemma resizeCanvas_valid_updates_gl (host : Host) (this : This)
  (g : GLState) (p loc : nat) :
  ((0 <? containerWidth host) && (0 <? containerHeight host))%Z = true ->
  gl this = Some g -> program this = Some p ->
  resolutionLocation this = Some loc ->
  let this' := resizeCanvas host this in
  exists g',
    gl this' = Some g'
    /\ viewport g'
       = (of_Z 0, of_Z 0, canvas_width this', canvas_height this')
    /\ gl_getUniform2f g' loc
       = Some (canvas_width this', canvas_height this').
Proof.
  intros Hv Hg Hp Hl. unfold resizeCanvas.
  rewrite !or_number_of_Z, !gt_of_Z_0.
  fold (containerWidth host) (containerHeight host). rewrite Hv.
  fields. rewrite Hg, Hp, Hl. fields. eexists. split; [reflexivity|].
  split; [reflexivity|].
  unfold gl_getUniform2f, gl_uniform2f. cbn [uniforms2f find fst].
  rewrite Nat.eqb_refl. reflexivity.
Qed.

(** ... and the [else] branch leaves it as it was. *)
Lemma resizeCanvas_invalid_keeps_gl (host : Host) (this : This) :
  ((0 <? containerWidth host) && (0 <? containerHeight host))%Z = false ->
  gl (resizeCanvas host this) = gl this.
Proof.
  intros Hv. unfold resizeCanvas.
  rewrite !or_number_of_Z, !gt_of_Z_0.
  fold (containerWidth host) (containerHeight host). rewrite Hv.
  reflexivity.
Qed.

(** C8.  The method run on an initialised pipeline whose container and
    window all report 0 x 0: the canvas becomes 1200 x 500, while the
    viewport and the resolution uniform keep the earlier 800 x 600. *)
Theorem resizeCanvas_forced_size_stale_gl :
  let host := mkHost 0 0 0 0 0 0 (Fin 1) in
  let g := mkGL (of_Z 0, of_Z 0, of_Z 800, of_Z 600) (Some 1%nat)
                [(0%nat, (of_Z 800, of_Z 600))] in
  let this := mkThis (options (constructor host None))
                     (of_Z 800) (of_Z 600) (Px (of_Z 800)) (Px (of_Z 600))
                     (Some g) (Some 1%nat) (Some 0%nat) in
  let this' := resizeCanvas host this in
  canvas_width this' = Fin 1200
  /\ canvas_height this' = Fin 500
  /\ option_map viewport (gl this')
     = Some (of_Z 0, of_Z 0, of_Z 800, of_Z 600)
  /\ match gl this' with
     | Some g' => gl_getUniform2f g' 0 = Some (of_Z 800, of_Z 600)
     | None => False
     end.
Proof. repeat split. Qed.

End ResizeCanvas.

(* ================================================================== *)
(** * constructor *)
(* ================================================================== *)

Section Constructor.

Local Open Scope Q_scope.

Lemma or_falsy (v d : value) : truthy v = false -> or v d = d.
Proof. unfold or. intros ->. reflexivity. Qed.

Lemma or_truthy (v d : value) : truthy d = true -> truthy (or v d) = true.
Proof. unfold or. intros Hd. destruct (truthy v) eqn:E; assumption. Qed.

Lemma truthy_not_zero (v : value) (q : Q) :
  truthy v = true -> v = VNum (Fin q) -> ~ q == 0.
Proof.
  intros Ht -> Hq. simpl in Ht. unfold Qzero in Ht.
  apply Qeq_bool_iff in Hq. rewrite Hq in Ht. discriminate Ht.
Qed.

(** C10.  A falsy value passed for [blend], [amplitude], [speed] or
    [colorStops] is replaced by the default (0.5, 1.0, 0.5 and the default
    triple); so, whatever is passed, the configured amplitude and speed
    are never the number 0. *)
Theorem constructor_falsy_options (host : Host) (o : Options) (v : value) :
  truthy v = false ->
  blend (options (constructor host
           (Some (mkOptions (colorStops o) v (amplitude o) (speed o)))))
  = VNum (Fin 0.5)
  /\ amplitude (options (constructor host
           (Some (mkOptions (colorStops o) (blend o) v (speed o)))))
     = VNum (Fin 1.0)
  /\ speed (options (constructor host
           (Some (mkOptions (colorStops o) (blend o) (amplitude o) v))))
     = VNum (Fin 0.5)
  /\ colorStops (options (constructor host
           (Some (mkOptions v (blend o) (amplitude o) (speed o)))))
     = defaultColorStops
  /\ (forall arg q,
        amplitude (options (constructor host arg)) = VNum (Fin q)
        \/ speed (options (constructor host arg)) = VNum (Fin q)
        \/ blend (options (constructor host arg)) = VNum (Fin q) ->
        ~ q == 0).
Proof.
  intros Hv. unfold constructor.
  rewrite !options_resizeCanvas. cbn [options blend amplitude speed colorStops].
  rewrite !(or_falsy v) by exact Hv.
  split; [reflexivity|]. split; [reflexivity|]. split; [reflexivity|].
  split; [reflexivity|].
  intros arg q H. rewrite !options_resizeCanvas in H.
  cbn [options blend amplitude speed colorStops] in H.
  destruct H as [H | [H | H]];
    refine (truthy_not_zero _ q _ H); apply or_truthy; reflexivity.
Qed.

Lemma constructor_falsy_options_witness :
  let host := mkHost 800 600 800 600 1024 768 (Fin 1) in
  let this := constructor host
                (Some (mkOptions VUndefined (VNum (Fin 0.7)) (VNum (Fin 0))
                                 (VNum (Fin 0.65)))) in
  truthy (VNum (Fin 0)) = false
  /\ amplitude (options this) = VNum (Fin 1.0).
Proof.
  intros host this. split; [reflexivity|].
  exact (proj1 (proj2
    (constructor_falsy_options host
       (mkOptions VUndefined (VNum (Fin 0.7)) VUndefined (VNum (Fin 0.65)))
       (VNum (Fin 0)) eq_refl))).
Defined.

End Constructor.

(* ================================================================== *)
(** * fallbackToCanvas2D *)
(* ================================================================== *)

Section Fallback.

Local Open Scope Q_scope.

Lemma frames_repaint (gradient : Gradient) (ticks : list This) :
  frames (Some (Animate2D gradient)) ticks = map (repaint gradient) ticks.
Proof.
  induction ticks as [|this rest IH]; [reflexivity|].
  cbn [frames run_callback animate2D map]. rewrite IH. reflexivity.
Qed.

Lemma offset_defined (index n : nat) :
  (2 <= n)%nat ->
  div (of_Z (Z.of_nat index)) (sub (of_Z (Z.of_nat n)) (of_Z 1))
  = even_offset index n.
Proof.
  intros Hn. unfold div, sub, of_Z, even_offset.
  destruct (Qzero (inject_Z (Z.of_nat n) - inject_Z 1)) eqn:E; [|reflexivity].
  exfalso. unfold Qzero in E. apply Qeq_bool_iff in E.
  unfold Qminus in E. rewrite <- inject_Z_opp, <- inject_Z_plus in E.
  unfold Qeq in E. simpl in E. lia.
Qed.

Lemma offset_accepted (index n : nat) :
  (2 <= n)%nat -> (index < n)%nat ->
  match even_offset index n with
  | Fin q => Qle_bool 0 q && Qle_bool q 1 = true
  | _ => False
  end.
Proof.
  intros Hn Hi. unfold even_offset.
  assert (Hd : 1 <= inject_Z (Z.of_nat n) - inject_Z 1).
  { unfold Qminus. rewrite <- inject_Z_opp, <- inject_Z_plus.
    change 1 with (inject_Z 1). rewrite <- Zle_Qle. lia. }
  assert (H0 : 0 <= inject_Z (Z.of_nat index)).
  { change 0 with (inject_Z 0). rewrite <- Zle_Qle. lia. }
  assert (H1 : inject_Z (Z.of_nat index)
               <= inject_Z (Z.of_nat n) - inject_Z 1).
  { unfold Qminus. rewrite <- inject_Z_opp, <- inject_Z_plus.
    rewrite <- Zle_Qle. lia. }
  apply andb_true_intro. split; apply Qle_bool_iff.
  - apply Qle_shift_div_l; Lqa.lra.
  - apply Qle_shift_div_r; Lqa.lra.
Qed.

Lemma addColorStop_accepted (css_colour : value -> bool) (g : Gradient)
  (index n : nat) (c : value) :
  (2 <= n)%nat -> (index < n)%nat ->
  addColorStop css_colour g
    (div (of_Z (Z.of_nat index)) (sub (of_Z (Z.of_nat n)) (of_Z 1))) c
  = if css_colour c
    then Normal (mkGradient (g_x0 g) (g_y0 g) (g_x1 g) (g_y1 g)
                            (g_stops g ++ [(even_offset index n, c)]))
    else ThrowSyntaxError.
Proof.
  intros Hn Hi. rewrite (offset_defined index n Hn).
  pose proof (offset_accepted index n Hn Hi) as H.
  unfold addColorStop. destruct (even_offset index n) as [| |q] eqn:E;
    try contradiction.
  rewrite H. reflexivity.
Qed.

Lemma forEach_stops (css_colour : value -> bool) (n : nat)
  (elems : list value) :
  (2 <= n)%nat ->
  forall (g : Gradient) (index : nat),
    (index + List.length elems <= n)%nat ->
    forEach_addColorStop css_colour g n index elems
    = if forallb css_colour elems
      then Normal (mkGradient (g_x0 g) (g_y0 g) (g_x1 g) (g_y1 g)
                              (g_stops g ++ even_stops n index elems))
      else ThrowSyntaxError.
Proof.
  intros Hn. induction elems as [|c rest IH]; intros g index Hi.
  - simpl. rewrite app_nil_r. destruct g; reflexivity.
  - cbn [forEach_addColorStop even_stops forallb List.length] in *.
    rewrite (addColorStop_accepted css_colour g index n c Hn) by lia.
    destruct (css_colour c); [|reflexivity].
    rewrite IH by lia. cbn [andb g_x0 g_y0 g_x1 g_y1 g_stops].
    rewrite <- app_assoc. reflexivity.
Qed.

Lemma even_stops_nth (n : nat) (elems : list value) :
  forall index i c,
    nth_error elems i = Some c ->
    nth_error (even_stops n index elems) i
    = Some (even_offset (index + i) n, c).
Proof.
  induction elems as [|c0 rest IH]; intros index i c H.
  - destruct i; discriminate H.
  - destruct i as [|i]; cbn [even_stops nth_error] in *.
    + injection H as ->. rewrite Nat.add_0_r. reflexivity.
    + rewrite (IH (S index) i c H), Nat.add_succ_comm. reflexivity.
Qed.

Lemma even_stops_length (n index : nat) (elems : list value) :
  List.length (even_stops n index elems) = List.length elems.
Proof.
  revert index. induction elems as [|c rest IH]; intros index;
    [reflexivity|]. cbn [even_stops List.length]. rewrite IH. reflexivity.
Qed.

(** C9 (as amended).  When [getContext('2d')] yields a context and there
    are n >= 2 colour stops, each of them a colour the context accepts,
    the method builds one horizontal gradient, from (0,0) to (canvas
    width, 0), with stop i at offset i/(n-1) (0, 1/2 and 1 for three
    stops), and every frame from then on consists of clearing the whole
    canvas and filling it with that gradient, nothing else, after which
    the next frame is scheduled.  When one of the stops is not a colour
    the context accepts, [addColorStop] throws a [SyntaxError] and the
    method ends there, with nothing painted. *)
Theorem fallbackToCanvas2D_gradient (css_colour : value -> bool)
  (this : This) (elems : list value) :
  colorStops (options this) = VArr elems ->
  (2 <= List.length elems)%nat ->
  (forallb css_colour elems = true ->
   exists gradient : Gradient,
     fallbackToCanvas2D css_colour this true
     = Normal (repaint gradient this, Some (Animate2D gradient))
     /\ (g_x0 gradient, g_y0 gradient, g_x1 gradient, g_y1 gradient)
        = (of_Z 0, of_Z 0, canvas_width this, of_Z 0)
     /\ List.length (g_stops gradient) = List.length elems
     /\ (forall i c, nth_error elems i = Some c ->
           nth_error (g_stops gradient) i
           = Some (even_offset i (List.length elems), c))
     /\ (forall c0 c1 c2, elems = [c0; c1; c2] ->
           g_stops gradient
           = [(Fin (0 # 2), c0); (Fin (1 # 2), c1); (Fin (2 # 2), c2)])
     /\ (forall ticks : list This,
           frames (Some (Animate2D gradient)) ticks
           = map (repaint gradient) ticks))
  /\ (forallb css_colour elems = false ->
      fallbackToCanvas2D css_colour this true = ThrowSyntaxError).
Proof.
  intros Hc Hn.
  assert (E : fallbackToCanvas2D css_colour this true
              = if forallb css_colour elems
                then Normal
                       (animate2D this
                          (mkGradient (of_Z 0) (of_Z 0) (canvas_width this)
                             (of_Z 0)
                             (even_stops (List.length elems) 0 elems)))
                else ThrowSyntaxError).
  { unfold fallbackToCanvas2D. rewrite Hc. cbn [negb].
    rewrite (forEach_stops css_colour _ elems Hn) by (cbn; lia).
    destruct (forallb css_colour elems); reflexivity. }
  split; intros Hcss; rewrite Hcss in E; [|exact E].
  exists (mkGradient (of_Z 0) (of_Z 0) (canvas_width this) (of_Z 0)
                     (even_stops (List.length elems) 0 elems)).
  split; [exact E|].
  split; [reflexivity|].
  split; [apply even_stops_length|].
  split; [intros i c H; exact (even_stops_nth _ elems 0 i c H)|].
  split; [intros c0 c1 c2 ->; reflexivity|].
  apply frames_repaint.
Qed.

Lemma fallbackToCanvas2D_gradient_witness :
  let host := mkHost 800 600 800 600 1024 768 (Fin 2) in
  let this := constructor host None in
  exists gradient : Gradient,
    fallbackToCanvas2D hex_notation this true
    = Normal (repaint gradient this, Some (Animate2D gradient))
    /\ g_stops gradient
       = [(Fin (0 # 2), VStr "#3A29FF"); (Fin (1 # 2), VStr "#FF94B4");
          (Fin (2 # 2), VStr "#FF3232")].
Proof.
  intros host this.
  destruct (proj1 (fallbackToCanvas2D_gradient hex_notation this
                     [VStr "#3A29FF"; VStr "#FF94B4"; VStr "#FF3232"]
                     eq_refl (le_S _ _ (le_n 2))) eq_refl)
    as (gradient & Hrun & _ & _ & _ & H3 & _).
  exists gradient. split; [exact Hrun|]. exact (H3 _ _ _ eq_refl).
Defined.

(** C9, counterexample.  When the canvas yields no 2D context (as a canvas
    that already holds a WebGL context does) the method returns at once:
    nothing is painted and no frame is scheduled. *)
Lemma fallbackToCanvas2D_without_context :
  let host := mkHost 800 600 800 600 1024 768 (Fin 2) in
  let this := constructor host None in
  fallbackToCanvas2D hex_notation this false = Normal ([], None)
  /\ frames None [this; this; this] = [].
Proof. split; reflexivity. Qed.

End Fallback.

(* ================================================================== *)
(** * The fragment shaders *)
(* ================================================================== *)

Section Shader.

Local Open Scope R_scope.

(** ** The two colour ramps agree *)

Lemma int_of_float_int (z : Z) : int_of_float (float_of_int z) = z.
Proof.
  unfold int_of_float, float_of_int.
  destruct (Rle_dec 0 (IZR z)); [apply ZfloorZ|].
  unfold Zceil. rewrite <- opp_IZR, ZfloorZ. lia.
Qed.

Lemma select_by_mix (index i : Z) (b : bool) :
  int_of_float (mix (float_of_int index) (float_of_int i) (float_of_bool b))
  = if b then i else index.
Proof.
  destruct b; unfold mix, float_of_bool.
  - replace (float_of_int index * (1 - 1) + float_of_int i * 1)
      with (float_of_int i) by ring.
    apply int_of_float_int.
  - replace (float_of_int index * (1 - 0) + float_of_int i * 0)
      with (float_of_int index) by ring.
    apply int_of_float_int.
Qed.

Lemma COLOR_RAMP_colorRamp (colors : list ColorStop) (factor : R) :
  COLOR_RAMP colors factor = colorRamp colors factor.
Proof.
  unfold COLOR_RAMP, colorRamp. cbn [fold_left].
  rewrite !select_by_mix. reflexivity.
Qed.

Lemma mains_agree (u : Uniforms) (gl_FragCoord : vec4) :
  main_webgl2 u gl_FragCoord = main_webgl1 u gl_FragCoord.
Proof.
  unfold main_webgl2, main_webgl1, main_with.
  rewrite COLOR_RAMP_colorRamp. reflexivity.
Qed.

(** C4.  The macro of the [#version 300 es] shader and the function of the
    WebGL 1 shader give the same colour for every array of stops and every
    factor, and so the two [main] functions give the same output. *)
Theorem COLOR_RAMP_equivalent :
  (forall (colors : list ColorStop) (factor : R),
     COLOR_RAMP colors factor = colorRamp colors factor)
  /\ (forall (u : Uniforms) (gl_FragCoord : vec4),
        main_webgl2 u gl_FragCoord = main_webgl1 u gl_FragCoord).
Proof.
  split; [exact COLOR_RAMP_colorRamp|exact mains_agree].
Qed.

(** ** The ramp at 0, 1 and 1/4 *)

Lemma at_index_three (a b c : ColorStop) :
  at_index [a; b; c] 0 = a
  /\ at_index [a; b; c] 1 = b
  /\ at_index [a; b; c] 2 = c.
Proof. repeat split. Qed.

Ltac ramp_index H :=
  unfold colorRamp, ramp_from, leb; cbn [fold_left];
  let E0 := fresh "E" in
  let E1 := fresh "E" in
  let E2 := fresh "E" in
  match goal with
  | |- context [at_index [?a; ?b; ?c] _] =>
      destruct (at_index_three a b c) as (E0 & E1 & E2)
  end;
  rewrite E0, E1; cbn [position];
  repeat match goal with
         | |- context [Rle_dec ?x ?y] =>
             destruct (Rle_dec x y); try (exfalso; lra)
         end;
  change (0 + 1)%Z with 1%Z; change (1 + 1)%Z with 2%Z;
  rewrite ?E0, ?E1, ?E2; cbn [position color].

Lemma colorRamp_first_half (c0 c1 c2 : vec3) (factor : R) :
  0 <= factor < 0.5 ->
  colorRamp [mkColorStop c0 0.0; mkColorStop c1 0.5; mkColorStop c2 1.0]
            factor
  = mix3 c0 c1 (factor / 0.5).
Proof.
  intros H. ramp_index H. f_equal. lra.
Qed.

Lemma colorRamp_second_half (c0 c1 c2 : vec3) (factor : R) :
  0.5 <= factor ->
  colorRamp [mkColorStop c0 0.0; mkColorStop c1 0.5; mkColorStop c2 1.0]
            factor
  = mix3 c1 c2 ((factor - 0.5) / 0.5).
Proof.
  intros H. ramp_index H. f_equal. lra.
Qed.

(** C2.  With the three stops at 0.0, 0.5 and 1.0 the ramp returns the
    first stop at 0, the third stop at 1, and the average of the first
    two at 0.25; this holds for the function and for the macro. *)
Theorem colorRamp_anchors (c0 c1 c2 : vec3) :
  let colors :=
    [mkColorStop c0 0.0; mkColorStop c1 0.5; mkColorStop c2 1.0] in
  let average := Vec3 ((x3 c0 + x3 c1) / 2) ((y3 c0 + y3 c1) / 2)
                      ((z3 c0 + z3 c1) / 2) in
  (colorRamp colors 0.0 = c0
   /\ colorRamp colors 1.0 = c2
   /\ colorRamp colors 0.25 = average)
  /\ (COLOR_RAMP colors 0.0 = c0
      /\ COLOR_RAMP colors 1.0 = c2
      /\ COLOR_RAMP colors 0.25 = average).
Proof.
  intros colors average. rewrite !COLOR_RAMP_colorRamp.
  assert (H : colorRamp colors 0.0 = c0
              /\ colorRamp colors 1.0 = c2
              /\ colorRamp colors 0.25 = average).
  { unfold colors, average. split; [|split].
    - rewrite colorRamp_first_half by lra.
      destruct c0, c1. unfold mix3, mix. cbn [x3 y3 z3]. f_equal; lra.
    - rewrite colorRamp_second_half by lra.
      destruct c1, c2. unfold mix3, mix. cbn [x3 y3 z3]. f_equal; lra.
    - rewrite colorRamp_first_half by lra.
      destruct c0, c1. unfold mix3, mix. cbn [x3 y3 z3]. f_equal; lra. }
  split; exact H.
Qed.

(** ** The alpha curve *)

Lemma clamp_unit (t : R) : 0 <= clamp t 0 1 <= 1.
Proof.
  unfold clamp, Rmin, Rmax.
  destruct (Rle_dec t 0); destruct (Rle_dec _ 1); lra.
Qed.

Lemma clamp_monotone (s t : R) : s <= t -> clamp s 0 1 <= clamp t 0 1.
Proof.
  intros H. unfold clamp, Rmin, Rmax.
  destruct (Rle_dec s 0); destruct (Rle_dec t 0);
    repeat match goal with
           | |- context [Rle_dec ?x 1] => destruct (Rle_dec x 1)
           end; lra.
Qed.

Lemma hermite_monotone (a b : R) :
  0 <= a -> a <= b -> b <= 1 ->
  a * a * (3 - 2 * a) <= b * b * (3 - 2 * b).
Proof.
  intros H0 Hab H1.
  assert (E : b * b * (3 - 2 * b) - a * a * (3 - 2 * a)
              = (b - a) * (3 * (a + b) - 2 * (a * a + a * b + b * b)))
    by ring.
  assert (0 <= 3 * (a + b) - 2 * (a * a + a * b + b * b)) by nra.
  assert (0 <= (b - a) * (3 * (a + b) - 2 * (a * a + a * b + b * b)))
    by (apply Rmult_le_pos; lra).
  lra.
Qed.

Lemma ratio_monotone (e0 e1 x y : R) :
  e0 < e1 -> x <= y -> (x - e0) / (e1 - e0) <= (y - e0) / (e1 - e0).
Proof.
  intros He Hxy. unfold Rdiv. apply Rmult_le_compat_r; [|lra].
  apply Rlt_le, Rinv_0_lt_compat. lra.
Qed.

Lemma smoothstep_monotone (e0 e1 x y : R) :
  e0 < e1 -> x <= y -> smoothstep e0 e1 x <= smoothstep e0 e1 y.
Proof.
  intros He Hxy. unfold smoothstep. cbv zeta.
  pose proof (clamp_unit ((x - e0) / (e1 - e0))).
  pose proof (clamp_unit ((y - e0) / (e1 - e0))).
  pose proof (clamp_monotone _ _ (ratio_monotone e0 e1 x y He Hxy)).
  apply hermite_monotone; lra.
Qed.

Lemma smoothstep_below (e0 e1 x : R) :
  e0 < e1 -> x <= e0 -> smoothstep e0 e1 x = 0.
Proof.
  intros He Hx. unfold smoothstep. cbv zeta.
  assert (H : (x - e0) / (e1 - e0) <= 0).
  { replace 0 with ((e0 - e0) / (e1 - e0)) by (unfold Rdiv; ring).
    apply ratio_monotone; lra. }
  replace (clamp ((x - e0) / (e1 - e0)) 0 1) with 0; [ring|].
  unfold clamp, Rmin, Rmax.
  destruct (Rle_dec _ 0); [|lra]. destruct (Rle_dec 0 1); lra.
Qed.

Lemma smoothstep_above (e0 e1 x : R) :
  e0 < e1 -> e1 <= x -> smoothstep e0 e1 x = 1.
Proof.
  intros He Hx. unfold smoothstep. cbv zeta.
  assert (H : 1 <= (x - e0) / (e1 - e0)).
  { replace 1 with ((e1 - e0) / (e1 - e0)) by (field; lra).
    apply ratio_monotone; lra. }
  replace (clamp ((x - e0) / (e1 - e0)) 0 1) with 1; [ring|].
  unfold clamp, Rmin, Rmax.
  destruct (Rle_dec _ 0); [lra|]. destruct (Rle_dec _ 1); lra.
Qed.

(** C3.  For a blend in (0,1] the alpha of [main],
    [smoothstep(0.20 - blend * 0.5, 0.20 + blend * 0.5, intensity)], does
    not decrease when the intensity grows, is 0 for an intensity up to
    [0.20 - blend/2] and 1 for an intensity from [0.20 + blend/2] on. *)
Theorem auroraAlpha_shape (blend : R) :
  0 < blend <= 1 ->
  let auroraAlpha intensity :=
    smoothstep (0.20 - blend * 0.5) (0.20 + blend * 0.5) intensity in
  (forall i1 i2, i1 <= i2 -> auroraAlpha i1 <= auroraAlpha i2)
  /\ (forall i, i <= 0.20 - blend / 2 -> auroraAlpha i = 0)
  /\ (forall i, 0.20 + blend / 2 <= i -> auroraAlpha i = 1).
Proof.
  intros Hb auroraAlpha. unfold auroraAlpha.
  split; [|split].
  - intros i1 i2 H. apply smoothstep_monotone; lra.
  - intros i H. apply smoothstep_below; lra.
  - intros i H. apply smoothstep_above; lra.
Qed.

Lemma auroraAlpha_shape_witness :
  0 < 0.7 <= 1
  /\ smoothstep (0.20 - 0.7 * 0.5) (0.20 + 0.7 * 0.5) (-1) = 0
  /\ smoothstep (0.20 - 0.7 * 0.5) (0.20 + 0.7 * 0.5) 1 = 1.
Proof.
  assert (Hb : 0 < 0.7 <= 1) by lra.
  destruct (auroraAlpha_shape 0.7 Hb) as (_ & H0 & H1).
  split; [exact Hb|]. split; [apply H0; lra|apply H1; lra].
Defined.

(** ** The output of [main] *)

(** C1.  For every pixel and every value of the uniforms, both shaders
    output the premultiplied colour
    [(intensity * rampColor * alpha, alpha)], where
    [height = exp(snoise(uv.x*2 + time*0.1, time*0.25) * 0.5 * amplitude)]
    is strictly positive, [intensity = 0.6 * (uv.y*2 - height + 0.2)],
    [alpha = smoothstep(0.20 - blend/2, 0.20 + blend/2, intensity)] and
    [rampColor] is the ramp over the three stops at [uv.x]. *)
Theorem main_output (u : Uniforms) (gl_FragCoord : vec4) :
  let uv := Vec2 (x4 gl_FragCoord / x2 (uResolution u))
                 (y4 gl_FragCoord / y2 (uResolution u)) in
  let height :=
    exp (snoise (Vec2 (x2 uv * 2 + uTime u * 0.1) (uTime u * 0.25))
         * 0.5 * uAmplitude u) in
  let intensity := 0.6 * (y2 uv * 2 - height + 0.2) in
  let alpha :=
    smoothstep (0.20 - uBlend u / 2) (0.20 + uBlend u / 2) intensity in
  let rampColor := COLOR_RAMP (main_colors u) (x2 uv) in
  let finalColor :=
    Vec4 (intensity * x3 rampColor * alpha) (intensity * y3 rampColor * alpha)
         (intensity * z3 rampColor * alpha) alpha in
  0 < height
  /\ main_webgl2 u gl_FragCoord = finalColor
  /\ main_webgl1 u gl_FragCoord = finalColor.
Proof.
  intros uv height intensity alpha rampColor finalColor.
  split; [apply exp_pos|].
  assert (H : main_webgl2 u gl_FragCoord = finalColor).
  { unfold main_webgl2, main_with, finalColor, alpha, intensity, height,
      rampColor, uv.
    cbn [zip2 map3 x2 y2 x3 y3 z3].
    replace (uBlend u * 0.5) with (uBlend u / 2) by lra.
    replace 2.0 with 2 by lra.
    reflexivity. }
  split; [exact H|].
  rewrite <- H. symmetry. apply mains_agree.
Qed.

End Shader.

(* ================================================================== *)
(** * hexToRgb on arbitrary input *)
(* ================================================================== *)

Section HexToRgbAnyInput.

Local Open Scope string_scope.
Local Open Scope Q_scope.

Lemma both_spec (f : bool -> bool) :
  both f = true -> forall b, f b = true.
Proof.
  unfold both. intros H b. apply andb_prop in H. destruct H, b; assumption.
Qed.

Lemma every_ascii_spec (p : ascii -> bool) :
  every_ascii p = true -> forall a, p a = true.
Proof.
  intros H [b0 b1 b2 b3 b4 b5 b6 b7]. unfold every_ascii in H.
  apply (both_spec _ (both_spec _ (both_spec _ (both_spec _
          (both_spec _ (both_spec _ (both_spec _ (both_spec _ H b0)
             b1) b2) b3) b4) b5) b6) b7).
Qed.

Lemma channel_of_one_char (a : ascii) :
  channel_in_range (div (parseInt (String a "") 16) (of_Z 255)) = true.
Proof.
  revert a. apply every_ascii_spec. vm_compute. reflexivity.
Qed.

Lemma channel_of_two_chars (a b : ascii) :
  channel_in_range (div (parseInt (String a (String b "")) 16) (of_Z 255))
  = true.
Proof.
  revert b. revert a.
  refine (fun a => every_ascii_spec _ (every_ascii_spec
            (fun a => every_ascii (fun b =>
               channel_in_range
                 (div (parseInt (String a (String b "")) 16) (of_Z 255))))
            _ a)).
  vm_compute. reflexivity.
Qed.

Lemma channel_of_short (s : string) :
  (String.length s <= 2)%nat ->
  channel_in_range (div (parseInt s 16) (of_Z 255)) = true.
Proof.
  destruct s as [|a [|b [|c ?]]]; simpl; intros H.
  - reflexivity.
  - apply channel_of_one_char.
  - apply channel_of_two_chars.
  - lia.
Qed.

Lemma substring_length (n m : nat) (s : string) :
  (String.length (String.substring n m s) <= m)%nat.
Proof.
  revert n m. induction s as [|c s IH]; intros [|n] [|m]; simpl;
    try lia.
  - specialize (IH 0%nat m). lia.
  - apply (IH n 0%nat).
  - apply (IH n (S m)).
Qed.

Lemma slice_length (h : string) (a : nat) :
  (String.length (substring h a (a + 2)) <= 2)%nat.
Proof.
  unfold substring.
  eapply Nat.le_trans; [apply substring_length|]. lia.
Qed.

(** X1.  Whatever string it is given, [hexToRgb] returns three numbers
    each of which is [NaN] or k/255 for a whole k from -15 to 255: never an
    infinity, never above 1, and below 0 only down to -15/255. *)
Theorem hexToRgb_channel_range (s : string) :
  List.length (hexToRgb s) = 3%nat
  /\ Forall (fun n => channel_in_range n = true) (hexToRgb s).
Proof.
  split; [apply hexToRgb_three_channels|].
  unfold hexToRgb. generalize (strip_hash s) as h. intros h.
  destruct (Nat.eqb (String.length h) 3) eqn:E.
  - destruct h as [|a [|b [|c [|? ?]]]]; try discriminate E.
    cbn [charAt String.get append].
    repeat constructor; apply channel_of_two_chars.
  - repeat constructor; apply channel_of_short;
      [apply (slice_length h 0)|apply (slice_length h 2)
      |apply (slice_length h 4)].
Qed.

(** X2.  Only one leading [#] is removed: for an input that starts with
    two of them the red channel is [NaN], whatever follows. *)
Theorem hexToRgb_double_hash (t : string) :
  nth 0 (hexToRgb ("##" ++ t)) (Fin 0) = NaN.
Proof.
  destruct t as [|c [|d [|e t']]]; reflexivity.
Qed.

Lemma strip_hash_app (s t : string) :
  (1 <= String.length (strip_hash s))%nat ->
  strip_hash (s ++ t) = strip_hash s ++ t.
Proof.
  destruct s as [|c s']; simpl; [lia|].
  intros _. bits c; reflexivity.
Qed.

Lemma hexToRgb_six_chars (a b c d e f : ascii) (rest : string) :
  let h := String a (String b (String c (String d (String e
             (String f rest))))) in
  (if Nat.eqb (String.length h) 3 then
     (div (parseInt (charAt h 0 ++ charAt h 0) 16) (of_Z 255),
      div (parseInt (charAt h 1 ++ charAt h 1) 16) (of_Z 255),
      div (parseInt (charAt h 2 ++ charAt h 2) 16) (of_Z 255))
   else
     (div (parseInt (substring h 0 2) 16) (of_Z 255),
      div (parseInt (substring h 2 4) 16) (of_Z 255),
      div (parseInt (substring h 4 6) 16) (of_Z 255)))
  = (div (parseInt (String a (String b "")) 16) (of_Z 255),
     div (parseInt (String c (String d "")) 16) (of_Z 255),
     div (parseInt (String e (String f "")) 16) (of_Z 255)).
Proof.
  intros h. unfold h. cbn [String.length Nat.eqb].
  unfold substring.
  cbn [String.length Nat.min Nat.max Nat.sub String.substring].
  replace (String.substring 0 0 rest) with "" by (destruct rest; reflexivity).
  reflexivity.
Qed.

Lemma is_NaN_div_255 (n : number) : is_NaN (div n (of_Z 255)) = is_NaN n.
Proof. destruct n; reflexivity. Qed.

Lemma reads_one_char (a : ascii) :
  is_NaN (parseInt (String a "") 16) = negb (reads_as_number (String a "")).
Proof.
  assert (H : every_ascii (fun a =>
                Bool.eqb (is_NaN (parseInt (String a "") 16))
                         (negb (reads_as_number (String a "")))) = true)
    by (vm_compute; reflexivity).
  apply Bool.eqb_prop. exact (every_ascii_spec _ H a).
Qed.

Lemma reads_two_chars (a b : ascii) :
  is_NaN (parseInt (String a (String b "")) 16)
  = negb (reads_as_number (String a (String b ""))).
Proof.
  assert (H : every_ascii (fun a => every_ascii (fun b =>
                Bool.eqb (is_NaN (parseInt (String a (String b "")) 16))
                         (negb (reads_as_number (String a (String b ""))))))
              = true)
    by (vm_compute; reflexivity).
  apply Bool.eqb_prop.
  exact (every_ascii_spec _ (every_ascii_spec _ H a) b).
Qed.

Lemma reads_doubled (a : ascii) :
  reads_as_number (String a (String a "")) = hex_digit a.
Proof.
  assert (H : every_ascii (fun a =>
                Bool.eqb (reads_as_number (String a (String a "")))
                         (hex_digit a)) = true)
    by (vm_compute; reflexivity).
  apply Bool.eqb_prop. exact (every_ascii_spec _ H a).
Qed.

Lemma reads_short (slice : string) :
  (String.length slice <= 2)%nat ->
  is_NaN (div (parseInt slice 16) (of_Z 255))
  = negb (reads_as_number slice).
Proof.
  rewrite is_NaN_div_255.
  destruct slice as [|a [|b [|c ?]]]; simpl String.length; intros H.
  - reflexivity.
  - apply reads_one_char.
  - apply reads_two_chars.
  - lia.
Qed.

(** The three channels are read off the three slices. *)
Lemma hexToRgb_by_slices (s : string) :
  exists s1 s2 s3 : string,
    colour_slices (strip_hash s) = [s1; s2; s3]
    /\ hexToRgb s
       = [div (parseInt s1 16) (of_Z 255); div (parseInt s2 16) (of_Z 255);
          div (parseInt s3 16) (of_Z 255)]
    /\ (String.length s1 <= 2 /\ String.length s2 <= 2
        /\ String.length s3 <= 2)%nat.
Proof.
  unfold hexToRgb. generalize (strip_hash s) as h. intros h.
  destruct h as [|a [|b [|c [|d [|e [|f rest]]]]]];
    try (do 3 eexists; split; [reflexivity|]; split; [reflexivity|];
         simpl; lia).
  rewrite (hexToRgb_six_chars a b c d e f rest).
  do 3 eexists. split; [reflexivity|]. split; [reflexivity|]. simpl. lia.
Qed.

(** C6 (as amended).  [hexToRgb] signals nothing and always returns three
    numbers, whatever the input.  Channel i is [NaN] exactly when slice i
    of the input without its [#] (characters 0-1, 2-3, 4-5, or each
    character twice when there are exactly three) does not read as a
    hexadecimal number: it is empty, or it starts neither with a
    hexadecimal digit nor with a blank or sign followed by one, or it is
    [0x].  So there is a [NaN] channel whenever fewer than five characters
    (and not three) are given, and, for three characters, exactly when one
    of them is no hexadecimal digit. *)
Theorem hexToRgb_malformed_NaN (s : string) :
  List.length (hexToRgb s) = 3%nat
  /\ map is_NaN (hexToRgb s)
     = map (fun slice => negb (reads_as_number slice))
           (colour_slices (strip_hash s))
  /\ existsb is_NaN (hexToRgb s)
     = negb (forallb reads_as_number (colour_slices (strip_hash s)))
  /\ ((String.length (strip_hash s) < 5)%nat ->
      String.length (strip_hash s) <> 3%nat ->
      existsb is_NaN (hexToRgb s) = true)
  /\ (String.length (strip_hash s) = 3%nat ->
      existsb is_NaN (hexToRgb s)
      = negb (forallb hex_digit (list_ascii_of_string (strip_hash s)))).
Proof.
  split; [apply hexToRgb_three_channels|].
  destruct (hexToRgb_by_slices s) as (s1 & s2 & s3 & Hs & Hc & L1 & L2 & L3).
  assert (M : map is_NaN (hexToRgb s)
              = map (fun slice => negb (reads_as_number slice))
                    (colour_slices (strip_hash s))).
  { rewrite Hs, Hc. cbn [map]. rewrite !reads_short by assumption.
    reflexivity. }
  assert (E : existsb is_NaN (hexToRgb s)
              = negb (forallb reads_as_number
                              (colour_slices (strip_hash s)))).
  { rewrite Hs, Hc. cbn [existsb forallb].
    rewrite !reads_short by assumption.
    destruct (reads_as_number s1), (reads_as_number s2),
      (reads_as_number s3); reflexivity. }
  split; [exact M|]. split; [exact E|]. split.
  - intros Hlt Hne. rewrite E. clear - Hlt Hne.
    destruct (strip_hash s) as [|a [|b [|c [|d [|e ?]]]]];
      simpl in Hlt, Hne; try lia; cbn; rewrite ?andb_false_r; reflexivity.
  - intros H3. rewrite E. clear - H3.
    destruct (strip_hash s) as [|a [|b [|c [|? ?]]]]; try discriminate H3.
    cbn [colour_slices list_ascii_of_string forallb].
    rewrite !reads_doubled. reflexivity.
Qed.

Lemma hexToRgb_malformed_NaN_witness :
  existsb is_NaN (hexToRgb "#ff") = true
  /\ existsb is_NaN (hexToRgb "#g0f") = true
  /\ existsb is_NaN (hexToRgb "zzzzzz") = true
  /\ existsb is_NaN (hexToRgb "gg0000") = true
  /\ map is_NaN (hexToRgb "0x12 4") = [true; false; false].
Proof.
  split; [|split; [|split; [|split]]].
  - apply (hexToRgb_malformed_NaN "#ff"); simpl; [lia|discriminate].
  - rewrite (proj2 (proj2 (proj2 (proj2 (hexToRgb_malformed_NaN "#g0f"))))
               eq_refl).
    reflexivity.
  - rewrite (proj1 (proj2 (proj2 (hexToRgb_malformed_NaN "zzzzzz")))).
    reflexivity.
  - rewrite (proj1 (proj2 (proj2 (hexToRgb_malformed_NaN "gg0000")))).
    reflexivity.
  - rewrite (proj1 (proj2 (hexToRgb_malformed_NaN "0x12 4"))). reflexivity.
Defined.

(** X3.  Once six characters have been read (after the optional [#]),
    whatever follows them is ignored. *)
Theorem hexToRgb_ignores_tail (s t : string) :
  (6 <= String.length (strip_hash s))%nat ->
  hexToRgb (s ++ t) = hexToRgb s.
Proof.
  intros H. unfold hexToRgb. rewrite strip_hash_app by lia.
  revert H. generalize (strip_hash s) as h. intros h H.
  destruct h as [|a [|b [|c [|d [|e [|f rest]]]]]];
    simpl in H; try lia.
  cbn [append].
  rewrite (hexToRgb_six_chars a b c d e f (rest ++ t)).
  rewrite (hexToRgb_six_chars a b c d e f rest). reflexivity.
Qed.

Lemma hexToRgb_ignores_tail_witness :
  hexToRgb "#00AAFFcc" = hexToRgb "#00AAFF"
  /\ hexToRgb "ffffffff" = hexToRgb "ffffff".
Proof.
  split.
  - apply (hexToRgb_ignores_tail "#00AAFF" "cc"). simpl. lia.
  - apply (hexToRgb_ignores_tail "ffffff" "ff"). simpl. lia.
Defined.

Lemma hexToRgb_six_digits (s : string) :
  hex_digits 6 s = true ->
  hexToRgb s
  = [Fin (inject_Z (digit_pair s 0) / inject_Z 255);
     Fin (inject_Z (digit_pair s 2) / inject_Z 255);
     Fin (inject_Z (digit_pair s 4) / inject_Z 255)].
Proof.
  intros H6.
  destruct s as [|a [|b [|c [|d [|e [|f [|? ?]]]]]]]; try discriminate H6.
  unfold hex_digits in H6; simpl in H6.
  repeat (apply andb_prop in H6;
          let H' := fresh "Hd" in destruct H6 as [H' H6]).
  unfold hexToRgb. rewrite strip_hash_hex by assumption.
  rewrite (hexToRgb_six_chars a b c d e f "").
  rewrite !parseInt_hex_pair by assumption. reflexivity.
Qed.

(** X4.  Two strings of six hexadecimal digits are mapped to the same
    triple exactly when they write the same three byte values: letter case
    makes no difference, and different bytes are never confused. *)
Theorem hexToRgb_same_colour (s t : string) :
  hex_digits 6 s = true ->
  hex_digits 6 t = true ->
  hexToRgb s = hexToRgb t
  <-> (digit_pair s 0 = digit_pair t 0
       /\ digit_pair s 2 = digit_pair t 2
       /\ digit_pair s 4 = digit_pair t 4).
Proof.
  intros Hs Ht.
  rewrite (hexToRgb_six_digits s Hs), (hexToRgb_six_digits t Ht).
  split.
  - intros H. injection H as H0 H2 H4.
    lia.
  - intros (-> & -> & ->). reflexivity.
Qed.

Lemma hexToRgb_same_colour_witness :
  hexToRgb "ff94b4" = hexToRgb "FF94B4"
  /\ hexToRgb "ff94b4" <> hexToRgb "ff94b5".
Proof.
  split.
  - apply (hexToRgb_same_colour "ff94b4" "FF94B4" eq_refl eq_refl).
    repeat split.
  - intros H.
    apply (hexToRgb_same_colour "ff94b4" "ff94b5" eq_refl eq_refl) in H.
    destruct H as (_ & _ & H). discriminate H.
Defined.

End HexToRgbAnyInput.

(* ================================================================== *)
(** * resizeCanvas, further properties *)
(* ================================================================== *)

Section ResizeCanvasMore.

Local Open Scope Q_scope.


Lemma filter_other_twice {A : Type} (loc : nat) (l : list (nat * A)) :
  filter (fun e => negb (Nat.eqb (fst e) loc))
         (filter (fun e => negb (Nat.eqb (fst e) loc)) l)
  = filter (fun e => negb (Nat.eqb (fst e) loc)) l.
Proof.
  induction l as [|e l IH]; [reflexivity|]. simpl.
  destruct (negb (Nat.eqb (fst e) loc)) eqn:E; simpl; rewrite ?E, IH;
    reflexivity.
Qed.

(** X5.  Resizing twice while the container and the window report the same
    is the same as resizing once: the second call changes nothing, neither
    on the canvas nor in the context. *)
Theorem resizeCanvas_idempotent (host : Host) (this : This) :
  resizeCanvas host (resizeCanvas host this) = resizeCanvas host this.
Proof.
  unfold resizeCanvas.
  destruct (gt _ _ && gt _ _); [|reflexivity].
  destruct this as [o w h sw sh [g|] [p|] [loc|]]; fields; try reflexivity.
  unfold set_gl. fields. do 2 f_equal.
  unfold gl_uniform2f, gl_useProgram, gl_viewport.
  cbn [viewport program_in_use uniforms2f]. f_equal.
  cbn [filter fst]. rewrite Nat.eqb_refl. cbn [negb].
  rewrite filter_other_twice. reflexivity.
Qed.





End ResizeCanvasMore.

(* ================================================================== *)
(** * The colour stops on their way to the fallback and to the shader *)
(* ================================================================== *)

Section ColourStops.

Local Open Scope Q_scope.

(** X8.  The constructor keeps any truthy [colorStops] as it is.  When
    that value is not an array (a string, a number, [true]), painting the
    fallback throws a [TypeError], and so does converting the stops for
    the shader. *)
Theorem colorStops_not_an_array (css_colour : value -> bool)
  (host : Host) (o : Options) (v : value) :
  truthy v = true ->
  (forall elems, v <> VArr elems) ->
  let this :=
    constructor host
      (Some (mkOptions v (blend o) (amplitude o) (speed o))) in
  colorStops (options this) = v
  /\ fallbackToCanvas2D css_colour this true = ThrowTypeError
  /\ convertColorStops (colorStops (options this)) = ThrowTypeError.
Proof.
  intros Hv Hn this.
  assert (E : colorStops (options this) = v).
  { unfold this, constructor. rewrite options_resizeCanvas.
    cbn [options colorStops]. unfold or. rewrite Hv. reflexivity. }
  split; [exact E|].
  unfold fallbackToCanvas2D. rewrite E. cbn [negb].
  destruct v; try (split; reflexivity).
  exfalso. exact (Hn elems eq_refl).
Qed.

Lemma colorStops_not_an_array_witness :
  let host := mkHost 800 600 800 600 1024 768 (Fin 1) in
  let this :=
    constructor host
      (Some (mkOptions (VStr "#3A29FF") VUndefined VUndefined VUndefined)) in
  fallbackToCanvas2D hex_notation this true = ThrowTypeError.
Proof.
  intros host this.
  refine (proj1 (proj2
    (colorStops_not_an_array hex_notation host
       (mkOptions VUndefined VUndefined VUndefined VUndefined)
       (VStr "#3A29FF") eq_refl _))).
  intros elems H. discriminate H.
Defined.

Lemma fallback_gradient_stops (css_colour : value -> bool)
  (this : This) (elems : list value) :
  colorStops (options this) = VArr elems ->
  (2 <= List.length elems)%nat ->
  forallb css_colour elems = true ->
  fallback_gradient css_colour this
  = Some (mkGradient (of_Z 0) (of_Z 0) (canvas_width this) (of_Z 0)
            (even_stops (List.length elems) 0 elems)).
Proof.
  intros Hc Hn Hcss. unfold fallback_gradient, fallbackToCanvas2D.
  rewrite Hc. cbn [negb].
  rewrite (forEach_stops css_colour _ elems Hn) by (cbn; lia).
  rewrite Hcss. reflexivity.
Qed.

Lemma even_stops_inv (n : nat) (elems : list value) :
  forall index i o c,
    nth_error (even_stops n index elems) i = Some (o, c) ->
    o = even_offset (index + i) n /\ (i < List.length elems)%nat.
Proof.
  induction elems as [|c0 rest IH]; intros index i o c H.
  - destruct i; discriminate H.
  - destruct i as [|i]; cbn [even_stops nth_error List.length] in *.
    + injection H as <- _. rewrite Nat.add_0_r. split; [reflexivity|lia].
    + destruct (IH (S index) i o c H) as [-> L].
      rewrite Nat.add_succ_comm. split; [reflexivity|lia].
Qed.

Lemma offset_value (i n : nat) :
  (2 <= n)%nat ->
  inject_Z (Z.of_nat i) / (inject_Z (Z.of_nat n) - inject_Z 1)
  == inject_Z (Z.of_nat i) / inject_Z (Z.of_nat n - 1).
Proof.
  intros Hn. unfold Qminus.
  rewrite <- inject_Z_opp, <- inject_Z_plus. reflexivity.
Qed.

Lemma ratio_bounds (i j d : Z) :
  (0 < d)%Z -> (0 <= i)%Z -> (i <= d)%Z ->
  0 <= inject_Z i / inject_Z d <= 1
  /\ (i = 0%Z -> inject_Z i / inject_Z d == 0)
  /\ (i = d -> inject_Z i / inject_Z d == 1)
  /\ ((i < j)%Z -> inject_Z i / inject_Z d < inject_Z j / inject_Z d).
Proof.
  intros Hd H0 H1.
  assert (Pd : 0 < inject_Z d).
  { change 0 with (inject_Z 0). rewrite <- Zlt_Qlt. exact Hd. }
  repeat split.
  - apply Qle_shift_div_l; [exact Pd|]. rewrite Qmult_0_l.
    change 0 with (inject_Z 0). rewrite <- Zle_Qle. exact H0.
  - apply Qle_shift_div_r; [exact Pd|]. rewrite Qmult_1_l.
    rewrite <- Zle_Qle. exact H1.
  - intros ->. unfold Qdiv. apply Qmult_0_l.
  - intros ->. apply Qmult_inv_r. intros E. rewrite E in Pd.
    exact (Qlt_irrefl 0 Pd).
  - intros Hij. unfold Qdiv. apply Qmult_lt_r.
    + apply Qinv_lt_0_compat. exact Pd.
    + rewrite <- Zlt_Qlt. exact Hij.
Qed.

(** X9.  With n >= 2 stops, all of them colours the context accepts, the
    offsets handed to [addColorStop] are finite, lie in [0,1], start at 0,
    end at 1 and strictly increase with the index: no offset makes
    [addColorStop] throw. *)
Theorem fallback_offsets_ordered (css_colour : value -> bool)
  (this : This) (elems : list value) :
  colorStops (options this) = VArr elems ->
  (2 <= List.length elems)%nat ->
  forallb css_colour elems = true ->
  exists gradient : Gradient,
    fallback_gradient css_colour this = Some gradient
    /\ List.length (g_stops gradient) = List.length elems
    /\ forall i o c,
         nth_error (g_stops gradient) i = Some (o, c) ->
         exists q : Q,
           o = Fin q
           /\ 0 <= q <= 1
           /\ (i = 0%nat -> q == 0)
           /\ (S i = List.length elems -> q == 1)
           /\ forall j o' c',
                (i < j)%nat ->
                nth_error (g_stops gradient) j = Some (o', c') ->
                exists q' : Q, o' = Fin q' /\ q < q'.
Proof.
  intros Hc Hn Hcss. eexists.
  split; [apply (fallback_gradient_stops _ _ _ Hc Hn Hcss)|].
  cbn [g_stops]. split; [apply even_stops_length|].
  set (n := List.length elems) in *.
  intros i o c Hi.
  destruct (even_stops_inv n elems 0 i o c Hi) as [-> Li]. cbn [Nat.add].
  unfold even_offset. eexists. split; [reflexivity|].
  assert (Hd : (0 < Z.of_nat n - 1)%Z) by lia.
  rewrite (offset_value i n Hn).
  destruct (ratio_bounds (Z.of_nat i) (Z.of_nat i) _ Hd) as (B & Z0 & Z1 & _);
    [lia|fold n in Li; lia|].
  split; [exact B|]. split; [intros ->; apply Z0; reflexivity|].
  split; [intros E; apply Z1; lia|].
  intros j o' c' Hij Hj.
  destruct (even_stops_inv n elems 0 j o' c' Hj) as [-> Lj]. cbn [Nat.add].
  unfold even_offset. eexists. split; [reflexivity|].
  rewrite ?(offset_value i n Hn), (offset_value j n Hn).
  destruct (ratio_bounds (Z.of_nat i) (Z.of_nat j) _ Hd) as (_ & _ & _ & Lt);
    [lia|fold n in Li; lia|].
  apply Lt. lia.
Qed.

Lemma fallback_offsets_ordered_witness :
  let host := mkHost 800 600 800 600 1024 768 (Fin 1) in
  exists gradient : Gradient,
    fallback_gradient hex_notation (constructor host None) = Some gradient
    /\ List.length (g_stops gradient) = 3%nat.
Proof.
  intros host.
  destruct (fallback_offsets_ordered hex_notation (constructor host None)
              [VStr "#3A29FF"; VStr "#FF94B4"; VStr "#FF3232"]
              eq_refl (le_S _ _ (le_n 2)) eq_refl)
    as (gradient & Hg & Hl & _).
  exists gradient. split; [exact Hg|exact Hl].
Defined.

(** X10.  With a single colour stop the offset handed to [addColorStop] is
    0/0, that is [NaN]: the call throws a [TypeError], whatever the colour,
    and the method ends there with nothing painted.  With an empty array
    no stop is added, and the frames clear and fill the canvas with a
    gradient without stops. *)
Theorem fallback_degenerate_stops (css_colour : value -> bool)
  (this : This) (elems : list value) :
  colorStops (options this) = VArr elems ->
  (List.length elems <= 1)%nat ->
  match elems with
  | [] =>
      exists gradient : Gradient,
        fallbackToCanvas2D css_colour this true
        = Normal (repaint gradient this, Some (Animate2D gradient))
        /\ g_stops gradient = []
        /\ forall ticks : list This,
             frames (Some (Animate2D gradient)) ticks
             = map (repaint gradient) ticks
  | _ :: _ =>
      div (of_Z 0) (sub (of_Z (Z.of_nat (List.length elems))) (of_Z 1)) = NaN
      /\ fallbackToCanvas2D css_colour this true = ThrowTypeError
      /\ fallback_gradient css_colour this = None
  end.
Proof.
  intros Hc Hn. unfold fallback_gradient, fallbackToCanvas2D.
  rewrite Hc. cbn [negb].
  destruct elems as [|c [|? ?]]; [| |simpl in Hn; lia].
  - eexists. split; [reflexivity|]. split; [reflexivity|].
    apply frames_repaint.
  - repeat split.
Qed.

Lemma fallback_degenerate_stops_witness :
  let host := mkHost 800 600 800 600 1024 768 (Fin 1) in
  let this :=
    constructor host
      (Some (mkOptions (VArr [VStr "#ff0000"]) VUndefined VUndefined
                       VUndefined)) in
  fallbackToCanvas2D hex_notation this true = ThrowTypeError.
Proof.
  intros host this.
  exact (proj1 (proj2
    (fallback_degenerate_stops hex_notation this [VStr "#ff0000"]
       eq_refl (le_n 1)))).
Defined.

End ColourStops.

(* ================================================================== *)
(** * The frame loop of the GPU pipeline *)
(* ================================================================== *)

Section FrameLoop.

Local Open Scope Q_scope.

Variable ToNumber : value -> number.

Lemma resizeCanvas_keeps_handles (host : Host) (this : This) :
  program (resizeCanvas host this) = program this
  /\ resolutionLocation (resizeCanvas host this) = resolutionLocation this
  /\ (gl this = None -> gl (resizeCanvas host this) = None)
  /\ (forall g, gl this = Some g ->
        exists g', gl (resizeCanvas host this) = Some g').
Proof.
  unfold resizeCanvas.
  destruct (gt _ _ && gt _ _).
  - destruct this as [o w h sw sh [g|] p loc]; fields;
      repeat split; try reflexivity; try discriminate; intros; eauto.
  - fields. repeat split; try reflexivity; eauto.
Qed.

(** X11.  After every frame the viewport and the resolution uniform are
    the size the canvas has just been given, also when [resizeCanvas] took
    its forced-size branch; and the frame ends with the next one
    scheduled. *)
Theorem animate_syncs_viewport (host : Host) (now : number) (r : Running)
  (g : GLState) (loc : nat) :
  gl (r_this r) = Some g ->
  resolutionLocation (r_this r) = Some loc ->
  let r' := fst (animate ToNumber host now r) in
  let w := canvas_width (resizeCanvas host (r_this r)) in
  let h := canvas_height (resizeCanvas host (r_this r)) in
  snd (animate ToNumber host now r) = Normal Animate3D
  /\ canvas_width (r_this r') = w
  /\ canvas_height (r_this r') = h
  /\ exists g',
       gl (r_this r') = Some g'
       /\ viewport g' = (of_Z 0, of_Z 0, w, h)
       /\ gl_getUniform2f g' loc = Some (w, h).
Proof.
  intros Hg Hl r' w h. unfold r', w, h, animate.
  destruct (resizeCanvas_keeps_handles host (r_this r))
    as (_ & El & _ & Eg).
  destruct (Eg g Hg) as [g' Eg']. rewrite Eg', El, Hl.
  cbn [fst snd r_this]. fields.
  split; [reflexivity|]. split; [reflexivity|]. split; [reflexivity|].
  eexists. split; [reflexivity|]. split; [reflexivity|].
  unfold gl_getUniform2f, gl_uniform2f. cbn [uniforms2f find fst].
  rewrite Nat.eqb_refl. reflexivity.
Qed.

Lemma animate_draws (host : Host) (now : number) (r : Running)
  (g : GLState) :
  gl (r_this r) = Some g ->
  exists r' g',
    animate ToNumber host now r = (r', Normal Animate3D)
    /\ gl (r_this r') = Some g'
    /\ draws r' = draws r ++ [DrawArrays TRIANGLES 0 3].
Proof.
  intros Hg. unfold animate.
  destruct (resizeCanvas_keeps_handles host (r_this r)) as (_ & _ & _ & Eg).
  destruct (Eg g Hg) as [g' Eg']. rewrite Eg'.
  eexists. eexists. split; [reflexivity|]. split; reflexivity.
Qed.

(** X12.  With a context in place the loop never stops by itself: after
    any number of frames the next one is scheduled, and each frame has
    issued exactly one draw call, of one triangle (3 vertices from 0).
    Without a context the first frame throws after resizing the canvas,
    draws nothing and schedules nothing. *)
Theorem run_frames_one_draw_each (r : Running)
  (ticks : list (Host * number)) :
  let result := run_frames ToNumber (Some Animate3D) r ticks in
  match gl (r_this r) with
  | Some _ =>
      snd result = Some Animate3D
      /\ draws (fst result)
         = draws r ++ repeat (DrawArrays TRIANGLES 0 3) (List.length ticks)
  | None =>
      match ticks with
      | [] => result = (r, Some Animate3D)
      | (host, now) :: _ =>
          result = (with_this r (resizeCanvas host (r_this r)), None)
      end
  end.
Proof.
  cbv zeta. destruct (gl (r_this r)) as [g|] eqn:Hg.
  - revert r g Hg. induction ticks as [|[host now] rest IH]; intros r g Hg.
    + cbn. rewrite app_nil_r. split; reflexivity.
    + destruct (animate_draws host now r g Hg) as (r' & g' & E & Hg' & Hd).
      cbn [run_frames]. rewrite E.
      destruct (IH r' g' Hg') as [Hs Hn].
      split; [exact Hs|]. rewrite Hn, Hd, <- app_assoc. reflexivity.
  - destruct ticks as [|[host now] rest]; [reflexivity|].
    cbn [run_frames]. unfold animate.
    destruct (resizeCanvas_keeps_handles host (r_this r)) as (_ & _ & En & _).
    rewrite (En Hg). reflexivity.
Qed.

End FrameLoop.

Section ShaderInputs.

Local Open Scope string_scope.
Local Open Scope Q_scope.

Lemma hexToRgb_well_formed_unit (s : string) :
  well_formed_colour s = true ->
  List.length (hexToRgb s) = 3%nat /\ Forall unit_channel (hexToRgb s).
Proof.
  intros H. split; [apply hexToRgb_three_channels|].
  unfold well_formed_colour in H.
  assert (E : hexToRgb s = hexToRgb (strip_hash s)).
  { apply orb_prop in H. unfold hexToRgb.
    destruct (strip_hash s) as [|c rest]; [reflexivity|].
    assert (Hc : hex_digit c = true).
    { destruct H as [H|H]; unfold hex_digits in H; simpl in H;
        apply andb_prop in H; destruct H as [_ H];
        apply andb_prop in H; destruct H as [H _]; exact H. }
    rewrite (strip_hash_hex c rest Hc). reflexivity. }
  rewrite E. revert H. generalize (strip_hash s) as h. clear E s.
  intros h H. apply orb_prop in H. destruct H as [H|H].
  - rewrite (hexToRgb_six_digits h H).
    repeat constructor; apply pair_over_255_range, digit_pair_range.
  - destruct h as [|a [|b [|c [|? ?]]]]; try discriminate H.
    unfold hex_digits in H; simpl in H.
    repeat (apply andb_prop in H;
            let H' := fresh "Hd" in destruct H as [H' H]).
    unfold hexToRgb. rewrite strip_hash_hex by assumption.
    cbn [String.length Nat.eqb charAt String.get append].
    rewrite !parseInt_hex_pair by assumption.
    pose proof (hex_value_range a). pose proof (hex_value_range b).
    pose proof (hex_value_range c).
    repeat constructor; apply pair_over_255_range; lia.
Qed.

(** X13.  An array of n well-formed colour descriptors is converted
    without error, and what a frame then uploads for [uColorStops] is 3n
    numbers, every one of them finite and in [0,1]. *)
Theorem well_formed_stops_upload (ToNumber : value -> number)
  (strs : list string)
  (host : Host) (now : number) (r : Running) (g : GLState) (loc : nat) :
  forallb well_formed_colour strs = true ->
  exists arr : list (list number),
    convertColorStops (VArr (map VStr strs)) = Normal arr
    /\ (colorStopsArray r = arr ->
        gl (r_this r) = Some g ->
        colorStopsLocation r = Some loc ->
        exists uploaded : list number,
          get_uniform loc (uniforms3fv (fst (animate ToNumber host now r)))
          = Some uploaded
          /\ List.length uploaded = (3 * List.length strs)%nat
          /\ Forall unit_channel uploaded).
Proof.
  intros Hw. exists (map hexToRgb strs). split.
  { cbn [convertColorStops]. clear Hw.
    induction strs as [|s rest IH]; [reflexivity|].
    cbn [map map_hexToRgb]. rewrite IH. reflexivity. }
  assert (Hflat : List.length (concat (map hexToRgb strs))
                  = (3 * List.length strs)%nat
                  /\ Forall unit_channel (concat (map hexToRgb strs))).
  { induction strs as [|s rest IH]; [split; [reflexivity|constructor]|].
    cbn [forallb] in Hw. apply andb_prop in Hw. destruct Hw as [Hs Hr].
    destruct (IH Hr) as [Il If].
    destruct (hexToRgb_well_formed_unit s Hs) as [Sl Sf].
    cbn [map concat List.length]. rewrite length_app, Sl, Il.
    split; [lia|]. apply Forall_app. split; assumption. }
  intros Ha Hg Hl. exists (concat (map hexToRgb strs)).
  split; [|exact Hflat].
  unfold animate.
  destruct (resizeCanvas_keeps_handles host (r_this r)) as (_ & _ & _ & Eg).
  destruct (Eg g Hg) as [g' Eg']. rewrite Eg'.
  cbn [fst uniforms3fv]. rewrite Hl, Ha.
  unfold get_uniform, set_uniform. cbn [find fst].
  rewrite Nat.eqb_refl. reflexivity.
Qed.

(** X14.  The single triangle that is drawn covers the whole of clip
    space: every point of the square [-1,1] x [-1,1] lies inside it (the
    vertex shader passes the positions on with w = 1). *)
Theorem triangle_covers_clip_space (x y : Q) :
  -1 <= x <= 1 -> -1 <= y <= 1 -> covered (x, y).
Proof.
  intros Hx Hy.
  unfold covered, edge. cbv [device_xy vertex_main vertex_position vertices
                             nth Nat.mul Nat.add fst snd].
  change (3 / 1) with 3. change (-1 / 1) with (-1).
  repeat split; Lqa.lra.
Qed.

Lemma triangle_covers_clip_space_witness :
  covered (1, 1) /\ covered (-1, -1) /\ covered (0, 0).
Proof.
  assert (B1 : -1 <= 1 <= 1) by (split; discriminate).
  assert (Bm : -1 <= -1 <= 1) by (split; discriminate).
  assert (B0 : -1 <= 0 <= 1) by (split; discriminate).
  split; [|split].
  - exact (triangle_covers_clip_space 1 1 B1 B1).
  - exact (triangle_covers_clip_space (-1) (-1) Bm Bm).
  - exact (triangle_covers_clip_space 0 0 B0 B0).
Defined.

End ShaderInputs.

Lemma animate_syncs_viewport_witness :
  let hidden := mkHost 0 0 0 0 0 0 (Fin 1) in
  let r := started (mkHost 800 600 800 600 1024 768 (Fin 1)) [] in
  let r' := fst (animate number_or_NaN hidden (Fin 16) r) in
  canvas_width (r_this r') = Fin 1200
  /\ canvas_height (r_this r') = Fin 500
  /\ option_map viewport (gl (r_this r'))
     = Some (of_Z 0, of_Z 0, Fin 1200, Fin 500).
Proof.
  intros hidden r r'.
  destruct (animate_syncs_viewport number_or_NaN hidden (Fin 16) r
              _ 3%nat eq_refl eq_refl)
    as (_ & Hw & Hh & g' & Hg & Hv & _).
  fold r' in Hw, Hh, Hg. rewrite Hg. cbn [option_map]. rewrite Hv.
  repeat split; assumption.
Defined.

Lemma well_formed_stops_upload_witness :
  let host := mkHost 800 600 800 600 1024 768 (Fin 1) in
  let strs := ["#00AAFF"; "#FF3232"; "#7CFF67"]%string in
  let r := started host (map hexToRgb strs) in
  exists uploaded : list number,
    get_uniform 2 (uniforms3fv (fst (animate number_or_NaN host (Fin 16) r)))
    = Some uploaded
    /\ List.length uploaded = 9%nat.
Proof.
  intros host strs r.
  destruct (well_formed_stops_upload number_or_NaN strs host (Fin 16) r
              (mkGL (of_Z 0, of_Z 0, of_Z 300, of_Z 150) (Some 1%nat) [])
              2%nat eq_refl)
    as (arr & Hc & Hup).
  injection Hc as <-.
  destruct (Hup eq_refl eq_refl eq_refl) as (uploaded & Hu & Hl & _).
  exists uploaded. split; [exact Hu|exact Hl].
Defined.

(* ================================================================== *)
(** * The fragment shaders, further properties *)
(* ================================================================== *)

Section ShaderMore.

Local Open Scope R_scope.

(** ** The ramp over its whole domain *)

Lemma colorRamp_below_half (c0 c1 c2 : vec3) (factor : R) :
  factor < 0.5 ->
  colorRamp [mkColorStop c0 0.0; mkColorStop c1 0.5; mkColorStop c2 1.0]
            factor
  = mix3 c0 c1 (factor / 0.5).
Proof.
  intros H. unfold colorRamp, ramp_from, leb. cbn [fold_left].
  destruct (at_index_three (mkColorStop c0 0.0) (mkColorStop c1 0.5)
                           (mkColorStop c2 1.0)) as (E0 & E1 & E2).
  rewrite E0, E1. cbn [position].
  destruct (Rle_dec 0.5 factor) as [G|_]; [exfalso; lra|].
  destruct (Rle_dec 0.0 factor);
    change (0 + 1)%Z with 1%Z; rewrite E0, E1; cbn [position color];
    f_equal; lra.
Qed.

(** X15.  With the stops at 0.0, 0.5 and 1.0 the ramp (function and
    macro) is the piecewise linear map through the three colours: below
    0.5 it interpolates the first two stops, from 0.5 on the last two, it
    passes through the middle stop at 0.5, and outside [0,1] it is not
    clamped but continues the nearest segment. *)
Theorem colorRamp_piecewise (c0 c1 c2 : vec3) (factor : R) :
  let colors :=
    [mkColorStop c0 0.0; mkColorStop c1 0.5; mkColorStop c2 1.0] in
  colorRamp colors factor
  = (if Rlt_dec factor 0.5
     then mix3 c0 c1 (2 * factor)
     else mix3 c1 c2 (2 * factor - 1))
  /\ COLOR_RAMP colors factor = colorRamp colors factor
  /\ colorRamp colors 0.5 = c1.
Proof.
  intros colors. unfold colors.
  split; [|split; [apply COLOR_RAMP_colorRamp|]].
  - destruct (Rlt_dec factor 0.5) as [L|G].
    + rewrite colorRamp_below_half by exact L. f_equal. lra.
    + rewrite colorRamp_second_half by lra. f_equal. lra.
  - rewrite colorRamp_second_half by lra.
    destruct c1, c2. unfold mix3, mix. cbn [x3 y3 z3]. f_equal; lra.
Qed.

Lemma mix_unit (a b t : R) :
  0 <= a <= 1 -> 0 <= b <= 1 -> 0 <= t <= 1 -> 0 <= mix a b t <= 1.
Proof. unfold mix. intros Ha Hb Ht. split; nra. Qed.

Lemma mix3_unit (a b : vec3) (t : R) :
  unit_vec3 a -> unit_vec3 b -> 0 <= t <= 1 -> unit_vec3 (mix3 a b t).
Proof.
  intros (A1 & A2 & A3) (B1 & B2 & B3) Ht. unfold unit_vec3, mix3.
  cbn [x3 y3 z3]. repeat split; apply mix_unit; assumption.
Qed.

(** X16.  For a factor in [0,1] the ramp of three colours with channels
    in [0,1] has its channels in [0,1]. *)
Theorem colorRamp_unit (c0 c1 c2 : vec3) (factor : R) :
  unit_vec3 c0 -> unit_vec3 c1 -> unit_vec3 c2 ->
  0 <= factor <= 1 ->
  unit_vec3
    (colorRamp [mkColorStop c0 0.0; mkColorStop c1 0.5; mkColorStop c2 1.0]
               factor).
Proof.
  intros H0 H1 H2 Hf.
  destruct (Rlt_dec factor 0.5) as [L|G].
  - rewrite colorRamp_below_half by exact L.
    apply mix3_unit; try assumption. lra.
  - rewrite colorRamp_second_half by lra.
    apply mix3_unit; try assumption. lra.
Qed.

Lemma colorRamp_unit_witness :
  unit_vec3
    (colorRamp [mkColorStop (Vec3 0 (2 / 3) 1) 0.0;
                mkColorStop (Vec3 1 0.2 0.2) 0.5;
                mkColorStop (Vec3 0.5 1 0.4) 1.0] 0.75).
Proof.
  apply colorRamp_unit; unfold unit_vec3; cbn [x3 y3 z3];
    repeat split; lra.
Defined.

(** ** Alpha *)

Lemma hermite_unit (t : R) : 0 <= t <= 1 -> 0 <= t * t * (3 - 2 * t) <= 1.
Proof.
  intros [H0 H1].
  assert (L : 0 <= t * t * (3 - 2 * t)).
  { apply Rmult_le_pos; [apply Rmult_le_pos; assumption|lra]. }
  assert (E : 1 - t * t * (3 - 2 * t) = (1 - t) * (1 - t) * (1 + 2 * t))
    by ring.
  assert (U : 0 <= (1 - t) * (1 - t) * (1 + 2 * t)).
  { apply Rmult_le_pos; [apply Rmult_le_pos; lra|lra]. }
  lra.
Qed.

Lemma smoothstep_unit (e0 e1 x : R) : 0 <= smoothstep e0 e1 x <= 1.
Proof. unfold smoothstep. cbv zeta. apply hermite_unit, clamp_unit. Qed.

Lemma clamp_complement (t : R) : clamp (1 - t) 0 1 = 1 - clamp t 0 1.
Proof.
  unfold clamp, Rmin, Rmax.
  destruct (Rle_dec (1 - t) 0), (Rle_dec t 0);
    repeat match goal with
           | |- context [Rle_dec ?x 1] => destruct (Rle_dec x 1)
           end; lra.
Qed.

(** X17.  For a positive blend the alpha curve is symmetric about the
    midpoint 0.20: the alphas at [0.20 + d] and [0.20 - d] add up to 1, and
    the alpha at 0.20 itself is 1/2. *)
Theorem auroraAlpha_symmetric (blend d : R) :
  0 < blend ->
  let auroraAlpha intensity :=
    smoothstep (0.20 - blend * 0.5) (0.20 + blend * 0.5) intensity in
  auroraAlpha (0.20 + d) + auroraAlpha (0.20 - d) = 1
  /\ auroraAlpha 0.20 = 1 / 2.
Proof.
  intros Hb auroraAlpha.
  assert (S : forall e, auroraAlpha (0.20 + e) + auroraAlpha (0.20 - e) = 1).
  { intros e. unfold auroraAlpha, smoothstep. cbv zeta.
    replace ((0.20 - e - (0.20 - blend * 0.5))
             / (0.20 + blend * 0.5 - (0.20 - blend * 0.5)))
      with (1 - (0.20 + e - (0.20 - blend * 0.5))
                / (0.20 + blend * 0.5 - (0.20 - blend * 0.5)))
      by (field; lra).
    rewrite clamp_complement. ring. }
  split; [apply S|].
  specialize (S 0). replace (0.20 + 0) with 0.20 in S by lra.
  replace (0.20 - 0) with 0.20 in S by lra. lra.
Qed.

Lemma auroraAlpha_symmetric_witness :
  smoothstep (0.20 - 0.7 * 0.5) (0.20 + 0.7 * 0.5) 0.20 = 1 / 2.
Proof.
  assert (Hb : 0 < 0.7) by lra.
  exact (proj2 (auroraAlpha_symmetric 0.7 0 Hb)).
Defined.

(** ** The output *)

Lemma main_channels (ramp : list ColorStop -> R -> vec3)
  (u : Uniforms) (fc : vec4) :
  let out := main_with ramp u fc in
  exists intensity rampColor,
    x4 out = intensity * x3 rampColor * w4 out
    /\ y4 out = intensity * y3 rampColor * w4 out
    /\ z4 out = intensity * z3 rampColor * w4 out
    /\ 0 <= w4 out <= 1.
Proof.
  unfold main_with. cbv zeta. cbn [x4 y4 z4 w4 map3 x3 y3 z3].
  do 2 eexists. repeat split; try reflexivity; apply smoothstep_unit.
Qed.

(** X18.  For a positive blend the alpha written by either shader is in
    [0,1], and a pixel whose alpha is 0 is written as (0,0,0,0): nothing of
    the colour is left in a fully transparent pixel. *)
Theorem main_alpha_unit (u : Uniforms) (gl_FragCoord : vec4) :
  0 < uBlend u ->
  (0 <= w4 (main_webgl2 u gl_FragCoord) <= 1
   /\ (w4 (main_webgl2 u gl_FragCoord) = 0 ->
       main_webgl2 u gl_FragCoord = Vec4 0 0 0 0))
  /\ (0 <= w4 (main_webgl1 u gl_FragCoord) <= 1
      /\ (w4 (main_webgl1 u gl_FragCoord) = 0 ->
          main_webgl1 u gl_FragCoord = Vec4 0 0 0 0)).
Proof.
  intros _.
  assert (G : forall ramp,
             0 <= w4 (main_with ramp u gl_FragCoord) <= 1
             /\ (w4 (main_with ramp u gl_FragCoord) = 0 ->
                 main_with ramp u gl_FragCoord = Vec4 0 0 0 0)).
  { intros ramp.
    destruct (main_channels ramp u gl_FragCoord)
      as (i & c & Hx & Hy & Hz & Hw).
    split; [exact Hw|]. intros H0.
    destruct (main_with ramp u gl_FragCoord) as [x y z w].
    cbn [x4 y4 z4 w4] in *. subst w. f_equal; lra. }
  split; apply G.
Qed.

Lemma main_alpha_unit_witness :
  let u := mkUniforms 0 1.5 (Vec3 0 0 1, Vec3 1 0 0, Vec3 0 1 0)
                      (Vec2 1000 500) 0.7 in
  0 <= w4 (main_webgl2 u (Vec4 10.5 0.5 0 1)) <= 1.
Proof.
  intros u.
  assert (Hb : 0 < uBlend u) by (cbn; lra).
  exact (proj1 (proj1 (main_alpha_unit u (Vec4 10.5 0.5 0 1) Hb))).
Defined.

(** X19.  On a surface of positive height and with a positive blend, the
    alpha of a pixel does not decrease when the pixel moves up its column:
    the effect fades in from the bottom of the surface to the top. *)
Theorem main_alpha_rises (u : Uniforms) (x ya yb z w z' w' : R) :
  0 < uBlend u ->
  0 < y2 (uResolution u) ->
  ya <= yb ->
  w4 (main_webgl2 u (Vec4 x ya z w)) <= w4 (main_webgl2 u (Vec4 x yb z' w'))
  /\ w4 (main_webgl1 u (Vec4 x ya z w))
     <= w4 (main_webgl1 u (Vec4 x yb z' w')).
Proof.
  intros Hb Hr Hy.
  assert (G : forall ramp,
             w4 (main_with ramp u (Vec4 x ya z w))
             <= w4 (main_with ramp u (Vec4 x yb z' w'))).
  { intros ramp. unfold main_with. cbv zeta.
    cbn [x4 y4 z4 w4 zip2 x2 y2].
    apply smoothstep_monotone; [lra|].
    assert (ya / y2 (uResolution u) <= yb / y2 (uResolution u)).
    { unfold Rdiv. apply Rmult_le_compat_r; [|exact Hy].
      apply Rlt_le, Rinv_0_lt_compat. exact Hr. }
    lra. }
  split; apply G.
Qed.

Lemma main_alpha_rises_witness :
  let u := mkUniforms 0 1.5 (Vec3 0 0 1, Vec3 1 0 0, Vec3 0 1 0)
                      (Vec2 1000 500) 0.7 in
  w4 (main_webgl2 u (Vec4 10.5 0.5 0 1))
  <= w4 (main_webgl2 u (Vec4 10.5 499.5 0 1)).
Proof.
  intros u.
  assert (Hb : 0 < uBlend u) by (cbn; lra).
  assert (Hr : 0 < y2 (uResolution u)) by (cbn; lra).
  assert (Hy : 0.5 <= 499.5) by lra.
  exact (proj1 (main_alpha_rises u 10.5 0.5 499.5 0 1 0 1 Hb Hr Hy)).
Defined.

(** ** The noise *)

Lemma floor_bounds (x : R) : floor x <= x < floor x + 1.
Proof. unfold floor. apply Zfloor_bound. Qed.

Lemma fmod_range (x m : R) : 0 < m -> 0 <= fmod x m < m.
Proof.
  intros Hm. unfold fmod.
  pose proof (floor_bounds (x / m)) as [L U].
  assert (E : x = x / m * m) by (field; lra).
  split.
  - assert (m * floor (x / m) <= m * (x / m)) by nra. nra.
  - assert (m * (x / m) < m * (floor (x / m) + 1)) by nra. nra.
Qed.

(** X20.  [permute] maps every vector into the cube [0,289)^3. *)
Theorem permute_range (v : vec3) :
  0 <= x3 (permute v) < 289
  /\ 0 <= y3 (permute v) < 289
  /\ 0 <= z3 (permute v) < 289.
Proof.
  unfold permute, map3. cbn [x3 y3 z3].
  repeat split; apply fmod_range; lra.
Qed.

Lemma fract_bounds (x : R) : 0 <= fract x < 1.
Proof. unfold fract. pose proof (floor_bounds x). lra. Qed.

Lemma square_bound (g b : R) : 0 <= b -> g * g <= b * b -> - b <= g <= b.
Proof. intros Hb H. split; nra. Qed.

(** One corner of the simplex: its falloff to the fourth power, the
    normalisation factor and the gradient's dot product. *)
Lemma corner_bound (X Y f : R) :
  0 <= f < 1 ->
  - 0.0561
  <= Rmax (0.5 - (X * X + Y * Y)) 0 * Rmax (0.5 - (X * X + Y * Y)) 0
     * (Rmax (0.5 - (X * X + Y * Y)) 0 * Rmax (0.5 - (X * X + Y * Y)) 0)
     * (1.79284291400159
        - 0.85373472095314
          * ((2 * f - 1 - floor (2 * f - 1 + 0.5))
             * (2 * f - 1 - floor (2 * f - 1 + 0.5))
             + (Rabs (2 * f - 1) - 0.5) * (Rabs (2 * f - 1) - 0.5)))
     * ((2 * f - 1 - floor (2 * f - 1 + 0.5)) * X
        + (Rabs (2 * f - 1) - 0.5) * Y)
  <= 0.0561.
Proof.
  intros Hf.
  assert (Ha : - 0.5 <= 2 * f - 1 - floor (2 * f - 1 + 0.5) <= 0.5).
  { pose proof (floor_bounds (2 * f - 1 + 0.5)). lra. }
  assert (Hh : - 0.5 <= Rabs (2 * f - 1) - 0.5 <= 0.5).
  { pose proof (Rabs_pos (2 * f - 1)).
    assert (Rabs (2 * f - 1) <= 1) by (apply Rabs_le; lra). lra. }
  revert Ha Hh.
  generalize (2 * f - 1 - floor (2 * f - 1 + 0.5)) as a.
  generalize (Rabs (2 * f - 1) - 0.5) as h.
  intros h a Ha Hh.
  assert (Haa : 0 <= a * a <= 0.25) by (split; nra).
  assert (Hhh : 0 <= h * h <= 0.25) by (split; nra).
  unfold Rmax. destruct (Rle_dec (0.5 - (X * X + Y * Y)) 0) as [Z|P].
  - replace (0 * 0 * (0 * 0) * _ * _) with 0 by ring. lra.
  - assert (Hd : 0 <= X * X + Y * Y < 0.5) by (split; nra).
    set (m := 0.5 - (X * X + Y * Y)) in *.
    assert (Hm : 0 < m <= 0.5) by (unfold m; lra).
    set (s := 1.79284291400159 - 0.85373472095314 * (a * a + h * h)).
    assert (Hs : 0 <= s <= 1.79284291400159) by (unfold s; split; nra).
    set (g := a * X + h * Y).
    assert (Hg : - 0.5 <= g <= 0.5).
    { assert (C : g * g <= (a * a + h * h) * (X * X + Y * Y)).
      { unfold g.
        assert (E : (a * a + h * h) * (X * X + Y * Y)
                    - (a * X + h * Y) * (a * X + h * Y)
                    = (a * Y - h * X) * (a * Y - h * X)) by ring.
        assert (0 <= (a * Y - h * X) * (a * Y - h * X)).
        { generalize (a * Y - h * X). intros z. nra. }
        lra. }
      assert ((a * a + h * h) * (X * X + Y * Y) <= 0.5 * 0.5).
      { apply Rmult_le_compat; lra. }
      assert (B : g * g <= 0.5 * 0.5) by lra.
      pose proof (square_bound g 0.5 ltac:(lra) B). lra. }
    assert (Hm2 : 0 <= m * m <= 0.25) by (split; nra).
    assert (Hm4 : 0 <= m * m * (m * m) <= 0.0625) by (split; nra).
    set (m4 := m * m * (m * m)) in *.
    assert (Hp : 0 <= m4 * s <= 0.0625 * 1.79284291400159).
    { split; [apply Rmult_le_pos; lra|apply Rmult_le_compat; lra]. }
    set (p := m4 * s) in *.
    split; nra.
Qed.

(** X21.  The noise is bounded: [snoise] never leaves [-22, 22]. *)
Theorem snoise_bounded (v : vec2) : - 22 <= snoise v <= 22.
Proof.
  destruct v as [vx vy].
  unfold snoise. cbv zeta.
  cbv beta iota delta [x2 y2 x3 y3 z3 x4 y4 z4 w4 map2 map3 zip2 zip3
                       dot2 dot3].
  match goal with
  | |- _ <= 130 * (?t1 + ?t2 + ?t3) <= _ =>
      assert (B1 : - 0.0561 <= t1 <= 0.0561)
        by (apply corner_bound, fract_bounds);
      assert (B2 : - 0.0561 <= t2 <= 0.0561)
        by (apply corner_bound, fract_bounds);
      assert (B3 : - 0.0561 <= t3 <= 0.0561)
        by (apply corner_bound, fract_bounds);
      revert B1 B2 B3; generalize t1, t2, t3
  end.
  intros t1 t2 t3 B1 B2 B3. lra.
Qed.

End ShaderMore.
